(** * gif-tsx: frame extraction and the GIF playback controller

    A shallow embedding of [dist/index.js]: the function [extractFrames], which
    composites the frames of a GIF on an off-screen canvas, and the hook
    [useGifController], whose callbacks drive a canvas element.

    JavaScript numbers that hold integers are [Z]; the loop counter of
    [extractFrames] and array lengths are [nat].  A canvas is modelled by its
    bitmap, a row-major list of RGBA pixels, and the 2D context operations the
    source calls ([createImageData], [putImageData], [getImageData],
    [drawImage]) are functions on bitmaps; the bitmap stores pixels exactly
    (no premultiplied-alpha rounding).  A call either returns or throws:
    [createImageData] and [getImageData] throw an [IndexSizeError] for an
    empty rectangle and [drawImage] throws an [InvalidStateError] for an
    empty source canvas, as the canvas API does.  What the source tests for
    ([getContext] returning null) is an input of the model. *)

From Stdlib Require Import ZArith List Bool String Lia.
Import ListNotations.
Open Scope Z_scope.

(** ** Completions: a call either returns or throws *)

Inductive Completion (A : Type) : Type :=
| Normal (a : A)
| Throw (e : string).
Arguments Normal {A} a.
Arguments Throw {A} e.

Definition bind {A B} (c : Completion A) (k : A -> Completion B) : Completion B :=
  match c with
  | Normal a => k a
  | Throw e => Throw e
  end.

Notation "x <- c ;; k" := (bind c (fun x => k))
  (at level 61, c at next level, right associativity).

(** ** Pixels and image data *)

Record RGBA := mkRGBA { red : Z; green : Z; blue : Z; alpha : Z }.

(** Transparent black, the content of a fresh canvas or [ImageData]. *)
Definition transparent : RGBA := mkRGBA 0 0 0 0.

Module ImageData.

Record t := mk { width : Z; height : Z; data : list RGBA }.

Definition inside (w h x y : Z) : bool :=
  (0 <=? x) && (x <? w) && (0 <=? y) && (y <? h).

(** The pixel at column [x] of row [y]; transparent black outside. *)
Definition pixelAt (img : t) (x y : Z) : RGBA :=
  if inside (width img) (height img) x y
  then nth (Z.to_nat (y * width img + x)) (data img) transparent
  else transparent.

(** A [w] by [h] image whose pixel at [(x, y)] is [f x y]. *)
Definition build (w h : Z) (f : Z -> Z -> RGBA) : t :=
  mk w h (map (fun k => f (Z.of_nat k mod w) (Z.of_nat k / w))
              (seq 0 (Z.to_nat (w * h)))).

Definition blank (w h : Z) : t := build w h (fun _ _ => transparent).

End ImageData.

(** ** The 2D context, as the source uses it *)

Definition IndexSizeError : string := "IndexSizeError".
Definition InvalidStateError : string := "InvalidStateError".

Module Ctx.

(** A context is identified with the bitmap of its canvas. *)
Definition t := ImageData.t.

(** [document.createElement("canvas")] followed by the assignments of
    [width] and [height]. *)
Definition createCanvas (w h : Z) : t := ImageData.blank w h.

(** [ctx.createImageData(sw, sh)]: an [IndexSizeError] when a size is 0. *)
Definition createImageData (sw sh : Z) : Completion ImageData.t :=
  if (sw =? 0) || (sh =? 0) then Throw IndexSizeError
  else Normal (ImageData.blank (Z.abs sw) (Z.abs sh)).

(** The pixels of a rectangle of the canvas; those outside the canvas read
    as transparent black. *)
Definition region (c : t) (sx sy sw sh : Z) : ImageData.t :=
  let x0 := Z.min sx (sx + sw) in
  let y0 := Z.min sy (sy + sh) in
  ImageData.build (Z.abs sw) (Z.abs sh)
    (fun x y => ImageData.pixelAt c (x0 + x) (y0 + y)).

(** [ctx.getImageData(sx, sy, sw, sh)]: an [IndexSizeError] when a size is 0. *)
Definition getImageData (c : t) (sx sy sw sh : Z) : Completion ImageData.t :=
  if (sw =? 0) || (sh =? 0) then Throw IndexSizeError
  else Normal (region c sx sy sw sh).

(** The dirty rectangle of [putImageData] after the normalisation and
    clipping steps of the canvas API: origin and size. *)
Definition clipDirty (img : ImageData.t) (dirtyX dirtyY dirtyWidth dirtyHeight : Z)
  : Z * Z * Z * Z :=
  let '(dirtyX, dirtyWidth) :=
    if dirtyWidth <? 0 then (dirtyX + dirtyWidth, Z.abs dirtyWidth)
    else (dirtyX, dirtyWidth) in
  let '(dirtyY, dirtyHeight) :=
    if dirtyHeight <? 0 then (dirtyY + dirtyHeight, Z.abs dirtyHeight)
    else (dirtyY, dirtyHeight) in
  let '(dirtyX, dirtyWidth) :=
    if dirtyX <? 0 then (0, dirtyWidth + dirtyX) else (dirtyX, dirtyWidth) in
  let '(dirtyY, dirtyHeight) :=
    if dirtyY <? 0 then (0, dirtyHeight + dirtyY) else (dirtyY, dirtyHeight) in
  let dirtyWidth :=
    if ImageData.width img <? dirtyX + dirtyWidth
    then ImageData.width img - dirtyX else dirtyWidth in
  let dirtyHeight :=
    if ImageData.height img <? dirtyY + dirtyHeight
    then ImageData.height img - dirtyY else dirtyHeight in
  (dirtyX, dirtyY, dirtyWidth, dirtyHeight).

Definition inRect (r : Z * Z * Z * Z) (x y : Z) : bool :=
  let '(rx, ry, rw, rh) := r in
  (rx <=? x) && (x <? rx + rw) && (ry <=? y) && (y <? ry + rh).

(** [ctx.putImageData(img, dx, dy, dirtyX, dirtyY, dirtyWidth, dirtyHeight)]:
    the pixels of the dirty rectangle of [img] replace those of the canvas,
    without blending. *)
Definition putImageDataDirty (c : t) (img : ImageData.t)
    (dx dy dirtyX dirtyY dirtyWidth dirtyHeight : Z) : t :=
  let r := clipDirty img dirtyX dirtyY dirtyWidth dirtyHeight in
  ImageData.build (ImageData.width c) (ImageData.height c)
    (fun X Y =>
       if inRect r (X - dx) (Y - dy)
       then ImageData.pixelAt img (X - dx) (Y - dy)
       else ImageData.pixelAt c X Y).

(** [ctx.putImageData(img, dx, dy)]: the dirty rectangle is the whole image. *)
Definition putImageData (c : t) (img : ImageData.t) (dx dy : Z) : t :=
  putImageDataDirty c img dx dy 0 0 (ImageData.width img) (ImageData.height img).

(** Source-over compositing of one pixel [s] over [d]: exact when the
    source is fully transparent or fully opaque, integer-rounded between. *)
Definition source_over (s d : RGBA) : RGBA :=
  if alpha s <=? 0 then d
  else if 255 <=? alpha s then s
  else
    let sa := alpha s in
    let da := alpha d in
    let oa := sa + da * (255 - sa) / 255 in
    let ch (cs cd : Z) :=
      if oa =? 0 then 0
      else (cs * sa * 255 + cd * da * (255 - sa)) / (oa * 255) in
    mkRGBA (ch (red s) (red d)) (ch (green s) (green d))
           (ch (blue s) (blue d)) oa.

(** [ctx.drawImage(src, dx, dy)] of a canvas [src] with the default
    composite operation: an [InvalidStateError] when [src] is empty. *)
Definition drawImage (c : t) (src : t) (dx dy : Z) : Completion t :=
  if (ImageData.width src =? 0) || (ImageData.height src =? 0)
  then Throw InvalidStateError
  else Normal
         (ImageData.build (ImageData.width c) (ImageData.height c)
            (fun X Y => source_over (ImageData.pixelAt src (X - dx) (Y - dy))
                                    (ImageData.pixelAt c X Y))).

End Ctx.

(** ** The parser collaborator ([GifReader] of omggif) *)

Module FrameInfo.
Record t := mk { x : Z; y : Z; width : Z; height : Z; disposal : Z; delay : Z }.
End FrameInfo.

Module GifReader.

Record t := mk {
  width : Z;
  height : Z;
  frames : list FrameInfo.t;
  (** [decodeAndBlitFrameRGBA g n pixels] is the content of [pixels] after
      the call [g.decodeAndBlitFrameRGBA(n, pixels)]. *)
  decodeAndBlitFrameRGBA : nat -> list RGBA -> list RGBA
}.

Definition numFrames (g : t) : nat := List.length (frames g).

Definition frameInfo (g : t) (frame_num : nat) : Completion FrameInfo.t :=
  match nth_error (frames g) frame_num with
  | Some info => Normal info
  | None => Throw "Frame index out of range."
  end.

End GifReader.

(** ** [extractFrames] *)

Module Frame.
Record t := mk { delay : Z; imageData : ImageData.t }.
End Frame.

(** Whether [getContext("2d")] succeeds on the [k]-th canvas that a call of
    [extractFrames] creates: canvas 0 is the accumulating one, canvas [S i]
    the temporary one of frame [i]. *)
Definition Document := nat -> bool.

(** The temporary canvas of one iteration after
    [tempCtx.putImageData(newImageData, 0, 0, dirtyX, dirtyY, dirtyWidth, dirtyHeight)]. *)
Definition tempLayer (g : GifReader.t) (frameIndex : nat) (info : FrameInfo.t)
    : Completion Ctx.t :=
  let width := GifReader.width g in
  let height := GifReader.height g in
  let tempCtx := Ctx.createCanvas width height in
  newImageData <- Ctx.createImageData width height ;;
  let newImageData :=
    ImageData.mk (ImageData.width newImageData) (ImageData.height newImageData)
      (GifReader.decodeAndBlitFrameRGBA g frameIndex (ImageData.data newImageData)) in
  Normal (Ctx.putImageDataDirty tempCtx newImageData 0 0
            (FrameInfo.x info) (FrameInfo.y info)
            (FrameInfo.width info) (FrameInfo.height info)).

(** The accumulating canvas after the disposal branch of one iteration. *)
Definition dispose (ctx tempCtx : Ctx.t) (info : FrameInfo.t) : Completion Ctx.t :=
  let disposal := FrameInfo.disposal info in
  if (disposal =? 0) || (disposal =? 1) then
    Ctx.drawImage ctx tempCtx 0 0
  else if disposal =? 2 then
    imageData <- Ctx.getImageData tempCtx 0 0
                   (FrameInfo.width info) (FrameInfo.height info) ;;
    Normal (Ctx.putImageData ctx imageData 0 0)
  else Normal ctx.

(** The body of the loop once the frame metadata [info] has been fetched:
    [None] is the early [return null], otherwise the accumulating canvas
    and the frame that is pushed. *)
Definition extractFrames_body (document : Document) (g : GifReader.t)
    (ctx : Ctx.t) (frameIndex : nat) (info : FrameInfo.t)
    : Completion (option (Ctx.t * Frame.t)) :=
  if negb (document (S frameIndex)) then Normal None
  else
    tempCtx <- tempLayer g frameIndex info ;;
    ctx <- dispose ctx tempCtx info ;;
    imageData <- Ctx.getImageData ctx 0 0 (GifReader.width g) (GifReader.height g) ;;
    Normal (Some (ctx, Frame.mk (FrameInfo.delay info * 10) imageData)).

(** The [for] loop: [remaining] iterations are left, the counter is
    [frameIndex].  The metadata is fetched with [frameInfo(0)]. *)
Fixpoint extractFrames_loop (document : Document) (g : GifReader.t)
    (remaining : nat) (frameIndex : nat) (ctx : Ctx.t) (frames : list Frame.t)
    : Completion (option (list Frame.t)) :=
  match remaining with
  | O => Normal (Some frames)
  | S remaining =>
      info <- GifReader.frameInfo g 0 ;;
      pushed <- extractFrames_body document g ctx frameIndex info ;;
      match pushed with
      | None => Normal None
      | Some (ctx, frame) =>
          extractFrames_loop document g remaining (S frameIndex) ctx (frames ++ [frame])
      end
  end.

Definition extractFrames (document : Document) (gifReader : GifReader.t)
    : Completion (option (list Frame.t)) :=
  let frames := [] in
  let ctx := Ctx.createCanvas (GifReader.width gifReader) (GifReader.height gifReader) in
  if negb (document O) then Normal None
  else extractFrames_loop document gifReader (GifReader.numFrames gifReader) O ctx frames.

(** ** [useGifController] *)

(** The value of the [state] cell: [{ loading: true, error: false }],
    [{ loading: false, error: true, errorMessage }] or
    [{ loading: false, error: false, gifReader, frames }]. *)
Inductive State : Type :=
| Loading
| Failed (errorMessage : string)
| Resolved (gifReader : GifReader.t) (frames : list Frame.t).

Definition loading (state : State) : bool :=
  match state with Loading => true | _ => false end.

Definition error (state : State) : bool :=
  match state with Failed _ => true | _ => false end.

(** [a[i]] on a JavaScript array: [None] stands for [undefined]. *)
Definition index {A : Type} (a : list A) (i : Z) : option A :=
  if i <? 0 then None else nth_error a (Z.to_nat i).

(** What the functions declared in one call of the hook close over: the
    arguments [url] and [autoplay], the context [ctx] obtained in that call
    ([true] when it is defined) and the values of the state cells. *)
Module Render.
Record t := mk {
  url : string;
  autoplay : bool;
  ctx : bool;
  state : State;
  shouldUpdate : bool;
  canvasAccessible : bool;
  playing : bool
}.
End Render.

(** A callback registered with [setTimeout]: the closure of
    [() => { renderNextFrame(); _iterateRenderLoop(); }] and its delay. *)
Module Timeout.
Record t := mk { closure : Render.t; delay : Z }.
End Timeout.

(** The dependency arrays of the four effects at the last commit. *)
Module Deps.
Record t := mk {
  url : string;
  shouldUpdate : bool;
  autoplay : bool;
  canvasAccessible : bool;
  playing : bool
}.
End Deps.

(** What persists between calls of the hook: the state cells, the two refs,
    the canvas element behind the [canvas] ref ([None] when [canvas.current]
    is null), the pending timeouts, the pending [loadGif] calls (by url), and
    the dependencies of the last commit ([None] before the first). *)
Module Hook.
Record t := mk {
  state : State;
  shouldUpdate : bool;
  canvasAccessible : bool;
  playing : bool;
  frameIndex : Z;
  _playing : bool;
  canvas : option ImageData.t;
  timeouts : list Timeout.t;
  loads : list string;
  deps : option Deps.t
}.

Definition setState (v : State) (h : t) : t :=
  mk v (shouldUpdate h) (canvasAccessible h) (playing h) (frameIndex h)
     (_playing h) (canvas h) (timeouts h) (loads h) (deps h).
Definition setShouldUpdate (v : bool) (h : t) : t :=
  mk (state h) v (canvasAccessible h) (playing h) (frameIndex h)
     (_playing h) (canvas h) (timeouts h) (loads h) (deps h).
Definition setCanvasAccessible (v : bool) (h : t) : t :=
  mk (state h) (shouldUpdate h) v (playing h) (frameIndex h)
     (_playing h) (canvas h) (timeouts h) (loads h) (deps h).
Definition setPlaying (v : bool) (h : t) : t :=
  mk (state h) (shouldUpdate h) (canvasAccessible h) v (frameIndex h)
     (_playing h) (canvas h) (timeouts h) (loads h) (deps h).
Definition set_frameIndex (v : Z) (h : t) : t :=
  mk (state h) (shouldUpdate h) (canvasAccessible h) (playing h) v
     (_playing h) (canvas h) (timeouts h) (loads h) (deps h).
Definition set_playing (v : bool) (h : t) : t :=
  mk (state h) (shouldUpdate h) (canvasAccessible h) (playing h) (frameIndex h)
     v (canvas h) (timeouts h) (loads h) (deps h).
Definition set_canvas (v : option ImageData.t) (h : t) : t :=
  mk (state h) (shouldUpdate h) (canvasAccessible h) (playing h) (frameIndex h)
     (_playing h) v (timeouts h) (loads h) (deps h).
Definition set_timeouts (v : list Timeout.t) (h : t) : t :=
  mk (state h) (shouldUpdate h) (canvasAccessible h) (playing h) (frameIndex h)
     (_playing h) (canvas h) v (loads h) (deps h).
Definition set_loads (v : list string) (h : t) : t :=
  mk (state h) (shouldUpdate h) (canvasAccessible h) (playing h) (frameIndex h)
     (_playing h) (canvas h) (timeouts h) v (deps h).
Definition set_deps (v : option Deps.t) (h : t) : t :=
  mk (state h) (shouldUpdate h) (canvasAccessible h) (playing h) (frameIndex h)
     (_playing h) (canvas h) (timeouts h) (loads h) v.

(** The cells and refs at the first call of the hook. *)
Definition initial (canvas : option ImageData.t) : t :=
  mk Loading false false false (-1) false canvas [] [] None.
End Hook.

Definition TypeError : string := "TypeError: cannot read properties of undefined".

(** *** The callbacks *)

Definition play (r : Render.t) (h : Hook.t) : Completion Hook.t :=
  if error (Render.state r) || loading (Render.state r) then Normal h
  else if Render.playing r then Normal h
  else Normal (Hook.setPlaying true h).

Definition _iterateRenderLoop (r : Render.t) (h : Hook.t) : Completion Hook.t :=
  match Render.state r with
  | Resolved _ frames =>
      if negb (Hook._playing h) then Normal h
      else
        match index frames (Hook.frameIndex h) with
        | None => Throw TypeError
        | Some frame =>
            Normal (Hook.set_timeouts
                      (Hook.timeouts h ++ [Timeout.mk r (Frame.delay frame)]) h)
        end
  | _ => Normal h
  end.

Definition pause (r : Render.t) (h : Hook.t) : Completion Hook.t :=
  Normal (Hook.setPlaying false h).

Definition restart (r : Render.t) (h : Hook.t) : Completion Hook.t :=
  Normal (Hook.set_frameIndex 0 h).

Definition renderFrame (r : Render.t) (frameIndex : Z) (h : Hook.t) : Completion Hook.t :=
  match Render.state r with
  | Resolved gifReader frames =>
      if negb (Render.ctx r) then Normal h
      else if (frameIndex <? 0) || (frameIndex >=? Z.of_nat (GifReader.numFrames gifReader))
      then Normal h
      else
        match index frames frameIndex with
        | None => Throw TypeError
        | Some frame =>
            Normal (Hook.set_canvas
                      (option_map (fun c => Ctx.putImageData c (Frame.imageData frame) 0 0)
                                  (Hook.canvas h)) h)
        end
  | _ => Normal h
  end.

Definition renderNextFrame (r : Render.t) (h : Hook.t) : Completion Hook.t :=
  match Render.state r with
  | Resolved gifReader frames =>
      if negb (Render.ctx r) then Normal h
      else
        let nextFrame :=
          if Hook.frameIndex h + 1 >=? Z.of_nat (GifReader.numFrames gifReader)
          then 0 else Hook.frameIndex h + 1 in
        h <- renderFrame r nextFrame h ;;
        Normal (Hook.set_frameIndex nextFrame h)
  | _ => Normal h
  end.

Definition renderPreviousFrame (r : Render.t) (h : Hook.t) : Completion Hook.t :=
  match Render.state r with
  | Resolved gifReader frames =>
      if negb (Render.ctx r) then Normal h
      else
        let prevFrame :=
          if Hook.frameIndex h - 1 <? 0
          then Z.of_nat (GifReader.numFrames gifReader) - 1
          else Hook.frameIndex h - 1 in
        h <- renderFrame r prevFrame h ;;
        Normal (Hook.set_frameIndex prevFrame h)
  | _ => Normal h
  end.

(** *** Loading *)

(** The bytes behind a url turned into a [GifReader]:
    [new GifReader(new Uint8Array(await (await fetch(url)).arrayBuffer()))],
    or the rejection of that chain. *)
Definition Network := string -> Completion GifReader.t.

(** The part of [loadGif] that runs once the awaited values are there.  A
    rejection is caught by nobody and sets nothing. *)
Definition loadGif (network : Network) (document : Document) (url : string)
    (h : Hook.t) : Hook.t :=
  match (gifReader <- network url ;;
         frames <- extractFrames document gifReader ;;
         Normal (gifReader, frames)) with
  | Throw _ => h
  | Normal (gifReader, None) =>
      Hook.setState (Failed "Could not extract frames from GIF.") h
  | Normal (gifReader, Some frames) =>
      Hook.setShouldUpdate true (Hook.setState (Resolved gifReader frames) h)
  end.

(** *** One call of the hook and its effects *)

Definition render (url : string) (autoplay : bool) (h : Hook.t) : Render.t :=
  Render.mk url autoplay
    (match Hook.canvas h with Some _ => true | None => false end)
    (Hook.state h) (Hook.shouldUpdate h) (Hook.canvasAccessible h) (Hook.playing h).

(** The object the hook returns, from the declarations of [index.d.ts]. *)
Inductive GifController : Type :=
| GifControllerLoading
| GifControllerError (errorMessage : string)
| GifControllerResolved (width height : Z) (playing : bool).

Definition useGifController (r : Render.t) : GifController :=
  match Render.state r with
  | Loading => GifControllerLoading
  | Failed errorMessage => GifControllerError errorMessage
  | Resolved gifReader _ =>
      GifControllerResolved (GifReader.width gifReader) (GifReader.height gifReader)
                            (Render.playing r)
  end.

(** [useEffect(..., [url])]: [loadGif()] is called and left pending. *)
Definition effect_url (r : Render.t) (h : Hook.t) : Completion Hook.t :=
  Normal (Hook.set_loads (Hook.loads h ++ [Render.url r]) h).

(** [useEffect(..., [canvas, shouldUpdate])]. *)
Definition effect_shouldUpdate (r : Render.t) (h : Hook.t) : Completion Hook.t :=
  if Render.shouldUpdate r then Normal (Hook.setShouldUpdate false h)
  else match Hook.canvas h with
       | Some _ => Normal (Hook.setCanvasAccessible true h)
       | None => Normal h
       end.

(** [useEffect(..., [autoplay, canvasAccessible])]. *)
Definition effect_canvasAccessible (r : Render.t) (h : Hook.t) : Completion Hook.t :=
  if Render.canvasAccessible r && (Hook.frameIndex h =? -1) then
    h <- renderNextFrame r h ;;
    if Render.autoplay r then Normal (Hook.setPlaying true h) else Normal h
  else Normal h.

(** [useEffect(..., [playing])]. *)
Definition effect_playing (r : Render.t) (h : Hook.t) : Completion Hook.t :=
  if Render.playing r then _iterateRenderLoop r (Hook.set_playing true h)
  else Normal (Hook.set_playing false h).

Definition when (b : bool) (effect : Hook.t -> Completion Hook.t) (h : Hook.t)
    : Completion Hook.t :=
  if b then effect h else Normal h.

(** A commit: the hook is called with [url] and [autoplay], then the effects
    whose dependencies differ from those of the last commit run in order. *)
Definition commit (url : string) (autoplay : bool) (h : Hook.t) : Completion Hook.t :=
  let r := render url autoplay h in
  let differs (same : Deps.t -> bool) :=
    match Hook.deps h with Some d => negb (same d) | None => true end in
  h <- when (differs (fun d => String.eqb (Deps.url d) url)) (effect_url r) h ;;
  h <- when (differs (fun d => Bool.eqb (Deps.shouldUpdate d) (Render.shouldUpdate r)))
            (effect_shouldUpdate r) h ;;
  h <- when (differs (fun d => Bool.eqb (Deps.autoplay d) autoplay
                               && Bool.eqb (Deps.canvasAccessible d) (Render.canvasAccessible r)))
            (effect_canvasAccessible r) h ;;
  h <- when (differs (fun d => Bool.eqb (Deps.playing d) (Render.playing r)))
            (effect_playing r) h ;;
  Normal (Hook.set_deps
            (Some (Deps.mk url (Render.shouldUpdate r) autoplay
                           (Render.canvasAccessible r) (Render.playing r))) h).

(** *** Events of the environment *)

Definition without {A : Type} (k : nat) (l : list A) : list A :=
  firstn k l ++ skipn (S k) l.

(** The [k]-th pending timeout fires:
    [() => { renderNextFrame(); _iterateRenderLoop(); }]. *)
Definition fire (k : nat) (h : Hook.t) : Completion Hook.t :=
  match nth_error (Hook.timeouts h) k with
  | None => Normal h
  | Some timeout =>
      let r := Timeout.closure timeout in
      let h := Hook.set_timeouts (without k (Hook.timeouts h)) h in
      h <- renderNextFrame r h ;;
      _iterateRenderLoop r h
  end.

(** The canvas element is mounted: React stores it in [canvas.current]. *)
Definition attach (element : ImageData.t) (h : Hook.t) : Hook.t :=
  Hook.set_canvas (Some element) h.

(** The [k]-th pending [loadGif] call runs to its end. *)
Definition settle (network : Network) (document : Document) (k : nat) (h : Hook.t)
    : Hook.t :=
  match nth_error (Hook.loads h) k with
  | None => h
  | Some url => loadGif network document url (Hook.set_loads (without k (Hook.loads h)) h)
  end.

(** *** Scenarios *)

(** [play()], a commit, [pause()] from the new render, a commit: the two
    calls come from separate events. *)
Definition play_then_pause (url : string) (autoplay : bool) (h : Hook.t)
    : Completion Hook.t :=
  h <- play (render url autoplay h) h ;;
  h <- commit url autoplay h ;;
  h <- pause (render url autoplay h) h ;;
  commit url autoplay h.

(** [play(); pause();] within one event handler: one commit after both. *)
Definition play_pause_batched (url : string) (autoplay : bool) (h : Hook.t)
    : Completion Hook.t :=
  let r := render url autoplay h in
  h <- play r h ;;
  h <- pause r h ;;
  commit url autoplay h.

(** A resolved controller at rest after a commit with [url] and [autoplay]:
    it is paused ([playing] and [_playing] are false), its frame index
    points into the frames and no cell has changed since the commit.  Ticks
    may be pending and the canvas element may be absent. *)
Definition paused (url : string) (autoplay : bool) (gifReader : GifReader.t)
    (frames : list Frame.t) (h : Hook.t) : Prop :=
  Hook.state h = Resolved gifReader frames
  /\ List.length frames = GifReader.numFrames gifReader
  /\ 0 <= Hook.frameIndex h < Z.of_nat (GifReader.numFrames gifReader)
  /\ Hook.playing h = false
  /\ Hook._playing h = false
  /\ Hook.deps h = Some (Deps.mk url (Hook.shouldUpdate h) autoplay
                                 (Hook.canvasAccessible h) false).

(** Whether the render obtained a context from the canvas element. *)
Definition mounted (h : Hook.t) : bool :=
  match Hook.canvas h with Some _ => true | None => false end.

(** The playback operations of the object the hook returns. *)
Inductive Operation : Type :=
| Play
| Pause
| Restart
| RenderFrame (frameIndex : Z)
| RenderNextFrame
| RenderPreviousFrame.

(** The call of an operation that the render [r] declared. *)
Definition call (r : Render.t) (operation : Operation) (h : Hook.t)
    : Completion Hook.t :=
  match operation with
  | Play => play r h
  | Pause => pause r h
  | Restart => restart r h
  | RenderFrame frameIndex => renderFrame r frameIndex h
  | RenderNextFrame => renderNextFrame r h
  | RenderPreviousFrame => renderPreviousFrame r h
  end.

(** Whether the object that the render [r] returns holds the operation: the
    loading and the error object hold none, the resolved one holds all. *)
Definition offers (r : Render.t) (operation : Operation) : bool :=
  match Render.state r with
  | Resolved _ _ => true
  | _ => false
  end.

(** The sizes with which every canvas call of [extractFrames] returns: the
    GIF is not empty, and neither is the dirty rectangle that [frameInfo(0)]
    reports when its disposal code is 2. *)
Definition sized (g : GifReader.t) : Prop :=
  GifReader.width g <> 0 /\ GifReader.height g <> 0
  /\ forall info,
       GifReader.frameInfo g O = Normal info ->
       FrameInfo.disposal info = 2 ->
       FrameInfo.width info <> 0 /\ FrameInfo.height info <> 0.

(** The frame index after one step forwards. *)
Definition successor (count : nat) (i : Z) : Z :=
  if i + 1 >=? Z.of_nat count then 0 else i + 1.

(** The dirty rectangle of a patch. *)
Definition inDirty (info : FrameInfo.t) (x y : Z) : bool :=
  (FrameInfo.x info <=? x) && (x <? FrameInfo.x info + FrameInfo.width info)
  && (FrameInfo.y info <=? y) && (y <? FrameInfo.y info + FrameInfo.height info).

(** The pixels [decodeAndBlitFrameRGBA] delivers for a frame, as an image of
    the size of the GIF. *)
Definition decoded (g : GifReader.t) (frameIndex : nat) : ImageData.t :=
  let blank := ImageData.blank (Z.abs (GifReader.width g)) (Z.abs (GifReader.height g)) in
  ImageData.mk (ImageData.width blank) (ImageData.height blank)
    (GifReader.decodeAndBlitFrameRGBA g frameIndex (ImageData.data blank)).

(** *** Sample inputs *)

Definition opaqueRed : RGBA := mkRGBA 255 0 0 255.
Definition opaqueBlue : RGBA := mkRGBA 0 0 255 255.

(** Every canvas gets its 2D context. *)
Definition allContexts : Document := fun _ => true.

(** Overwrites the pixel at position [k] of a pixel array. *)
Fixpoint paint (k : nat) (p : RGBA) (pixels : list RGBA) : list RGBA :=
  match pixels, k with
  | [], _ => []
  | _ :: rest, O => p :: rest
  | q :: rest, S k => q :: paint k p rest
  end.

(** A 2 by 1 GIF of two frames: frame 0 is the red pixel (0,0) shown for 10
    centiseconds, frame 1 the blue pixel (1,0) shown for 20. *)
Definition twoPatches : GifReader.t :=
  GifReader.mk 2 1
    [FrameInfo.mk 0 0 1 1 1 10; FrameInfo.mk 1 0 1 1 1 20]
    (fun n pixels =>
       match n with
       | O => paint 0 opaqueRed pixels
       | _ => paint 1 opaqueBlue pixels
       end).

(** A 2 by 1 GIF of one frame with disposal code 2: the red pixel (1,0). *)
Definition restoreToBackground : GifReader.t :=
  GifReader.mk 2 1 [FrameInfo.mk 1 0 1 1 2 10]
    (fun _ pixels => paint 1 opaqueRed pixels).

(** A 2 by 1 GIF of two frames: frame 0 covers the canvas with red and has
    disposal code 2, frame 1 is the blue pixel (1,0) with disposal code 1. *)
Definition twoDisposals : GifReader.t :=
  GifReader.mk 2 1
    [FrameInfo.mk 0 0 2 1 2 10; FrameInfo.mk 1 0 1 1 1 20]
    (fun n pixels =>
       match n with
       | O => map (fun _ => opaqueRed) pixels
       | _ => paint 1 opaqueBlue pixels
       end).

(** A GIF of width 0 with one frame. *)
Definition zeroWidth : GifReader.t :=
  GifReader.mk 0 1 [FrameInfo.mk 0 0 0 1 1 10] (fun _ pixels => pixels).

(** No canvas gets a 2D context. *)
Definition noContexts : Document := fun _ => false.

(** A GIF without frames. *)
Definition noFrames : GifReader.t :=
  GifReader.mk 1 1 [] (fun _ pixels => pixels).

(** A 3 by 1 GIF of one frame. *)
Definition wide : GifReader.t :=
  GifReader.mk 3 1 [FrameInfo.mk 0 0 3 1 1 5]
    (fun _ pixels => map (fun _ => opaqueBlue) pixels).

Definition sampleNetwork : Network :=
  fun url =>
    if String.eqb url "urlA" then Normal twoPatches
    else if String.eqb url "urlB" then Normal wide
    else if String.eqb url "empty" then Normal noFrames
    else Throw "TypeError: Failed to fetch".

Definition framesOf (g : GifReader.t) : list Frame.t :=
  match extractFrames allContexts g with
  | Normal (Some frames) => frames
  | _ => []
  end.

(** The hook is mounted, the load of urlA ends, the canvas element is
    mounted with the resolved render, and the commits that follow run. *)
Definition mountThenAttach : Completion Hook.t :=
  h <- commit "urlA" false (Hook.initial None) ;;
  h <- commit "urlA" false
         (attach (ImageData.blank 2 1) (settle sampleNetwork allContexts 0 h)) ;;
  h <- commit "urlA" false h ;;
  commit "urlA" false h.

(** The hook is mounted together with its canvas element, the commits that
    follow run, the load of urlA ends, and the commits that follow run. *)
Definition mountWithCanvas : Completion Hook.t :=
  h <- commit "urlA" false (Hook.initial (Some (ImageData.blank 2 1))) ;;
  h <- commit "urlA" false h ;;
  h <- commit "urlA" false (settle sampleNetwork allContexts 0 h) ;;
  h <- commit "urlA" false h ;;
  commit "urlA" false h.

(** The resolved controller of [twoPatches] that [mountThenAttach] ends in:
    frame 0 is on the canvas and the frame index is 0. *)
Definition readyTwoPatches : Hook.t :=
  Hook.mk (Resolved twoPatches (framesOf twoPatches)) false true false 0 false
          (Some (ImageData.mk 2 1 [opaqueRed; transparent])) [] []
          (Some (Deps.mk "urlA" false false true false)).

(** The resolved controller of [twoPatches] that [mountWithCanvas] ends in:
    nothing has been rendered and the frame index still is -1. *)
Definition unrenderedTwoPatches : Hook.t :=
  Hook.mk (Resolved twoPatches (framesOf twoPatches)) false true false (-1) false
          (Some (ImageData.blank 2 1)) [] []
          (Some (Deps.mk "urlA" false false true false)).

Definition readyRender : Render.t := render "urlA" false readyTwoPatches.

(** The controller [readyTwoPatches] after the url has changed to urlB and
    the load of urlB has ended without a 2D context: the state is the error
    one, the refs are those of the resolved controller. *)
Definition failedAfterReady : Hook.t :=
  Hook.mk (Failed "Could not extract frames from GIF.") false true false 0 false
          (Some (ImageData.mk 2 1 [opaqueRed; transparent])) [] []
          (Some (Deps.mk "urlB" false false true false)).

(** *** Further scenarios *)

(** [renderNextFrame()] called [n] times from the same render. *)
Fixpoint renderNextFrames (n : nat) (r : Render.t) (h : Hook.t) : Completion Hook.t :=
  match n with
  | O => Normal h
  | S n => h <- renderNextFrame r h ;; renderNextFrames n r h
  end.

(** [play()], a commit, [play()] from the new render, a commit. *)
Definition play_twice (url : string) (autoplay : bool) (h : Hook.t)
    : Completion Hook.t :=
  h <- play (render url autoplay h) h ;;
  h <- commit url autoplay h ;;
  h <- play (render url autoplay h) h ;;
  commit url autoplay h.

(** [play()], [pause()] and [play()] again, a commit after each, before any
    tick fires. *)
Definition play_pause_play (url : string) (autoplay : bool) (h : Hook.t)
    : Completion Hook.t :=
  h <- play_then_pause url autoplay h ;;
  h <- play (render url autoplay h) h ;;
  commit url autoplay h.

(** [restart()] followed by [renderNextFrame()]. *)
Definition restart_then_next (r : Render.t) (h : Hook.t) : Completion Hook.t :=
  h <- restart r h ;;
  renderNextFrame r h.


(** A resolved controller of [twoPatches] during playback, frame 0 shown. *)
Definition loopingTwoPatches : Hook.t :=
  Hook.mk (Resolved twoPatches (framesOf twoPatches)) false true true 0 true
          (Some (ImageData.mk 2 1 [opaqueRed; transparent]))
          [Timeout.mk (render "urlA" false
                         (Hook.setPlaying true readyTwoPatches)) 100] []
          (Some (Deps.mk "urlA" false false true true)).

(** A one-frame GIF whose disposal code is 3. *)
Definition restoreToPrevious : GifReader.t :=
  GifReader.mk 2 1 [FrameInfo.mk 0 0 2 1 3 10]
    (fun _ pixels => map (fun _ => opaqueRed) pixels).

(** No canvas gets a 2D context from the second temporary one on. *)
Definition twoContexts : Document := fun k => (k <=? 1)%nat.

(** * Properties *)

(** ** Pixels of built images *)

Lemma inside_true_iff (w h x y : Z) :
  ImageData.inside w h x y = true <-> 0 <= x < w /\ 0 <= y < h.
Proof.
  unfold ImageData.inside.
  rewrite !andb_true_iff, !Z.leb_le, !Z.ltb_lt. lia.
Qed.

Lemma pixelAt_outside (img : ImageData.t) (x y : Z) :
  ImageData.inside (ImageData.width img) (ImageData.height img) x y = false ->
  ImageData.pixelAt img x y = transparent.
Proof. unfold ImageData.pixelAt. intros ->. reflexivity. Qed.

Lemma pixelAt_build (w h : Z) (f : Z -> Z -> RGBA) (x y : Z) :
  ImageData.pixelAt (ImageData.build w h f) x y =
  if ImageData.inside w h x y then f x y else transparent.
Proof.
  unfold ImageData.pixelAt, ImageData.build. cbn [ImageData.width ImageData.height ImageData.data].
  destruct (ImageData.inside w h x y) eqn:Hin; [|reflexivity].
  apply inside_true_iff in Hin. destruct Hin as [Hx Hy].
  assert (Hlt : (Z.to_nat (y * w + x) < Z.to_nat (w * h))%nat) by nia.
  set (g := fun k : nat => f (Z.of_nat k mod w) (Z.of_nat k / w)).
  rewrite (nth_indep _ transparent (g O)) by (rewrite length_map, length_seq; exact Hlt).
  rewrite map_nth, seq_nth by exact Hlt.
  unfold g. rewrite Nat.add_0_l, Z2Nat.id by nia.
  rewrite (Z.add_comm (y * w) x), Z_mod_plus_full, Z_div_plus_full by lia.
  rewrite Z.mod_small, Z.div_small by lia.
  reflexivity.
Qed.

Lemma source_over_transparent (s d : RGBA) :
  alpha s = 0 -> Ctx.source_over s d = d.
Proof. unfold Ctx.source_over. intros ->. reflexivity. Qed.

(** What the calls that can throw give when they return. *)
Lemma createImageData_normal (sw sh : Z) (img : ImageData.t) :
  Ctx.createImageData sw sh = Normal img ->
  sw <> 0 /\ sh <> 0 /\ img = ImageData.blank (Z.abs sw) (Z.abs sh).
Proof.
  unfold Ctx.createImageData.
  destruct (Z.eqb_spec sw 0), (Z.eqb_spec sh 0); cbn [orb]; try discriminate.
  intros [= <-]. auto.
Qed.

Lemma getImageData_normal (c : Ctx.t) (sx sy sw sh : Z) (img : ImageData.t) :
  Ctx.getImageData c sx sy sw sh = Normal img ->
  sw <> 0 /\ sh <> 0 /\ img = Ctx.region c sx sy sw sh.
Proof.
  unfold Ctx.getImageData.
  destruct (Z.eqb_spec sw 0), (Z.eqb_spec sh 0); cbn [orb]; try discriminate.
  intros [= <-]. auto.
Qed.

Lemma getImageData_sized (c : Ctx.t) (sx sy sw sh : Z) :
  sw <> 0 -> sh <> 0 ->
  Ctx.getImageData c sx sy sw sh = Normal (Ctx.region c sx sy sw sh).
Proof.
  intros Hw Hh. unfold Ctx.getImageData.
  destruct (Z.eqb_spec sw 0), (Z.eqb_spec sh 0); cbn [orb]; congruence.
Qed.

Lemma pixelAt_drawImage (c src c' : Ctx.t) (x y : Z) :
  Ctx.drawImage c src 0 0 = Normal c' ->
  ImageData.pixelAt c' x y =
  if ImageData.inside (ImageData.width c) (ImageData.height c) x y
  then Ctx.source_over (ImageData.pixelAt src x y) (ImageData.pixelAt c x y)
  else transparent.
Proof.
  unfold Ctx.drawImage.
  destruct ((ImageData.width src =? 0) || (ImageData.height src =? 0)); [discriminate|].
  intros [= <-]. rewrite pixelAt_build, !Z.sub_0_r. reflexivity.
Qed.

(** Where the layer drawn on top is transparent the canvas keeps its pixel. *)
Lemma drawImage_shows_through (c src c' : Ctx.t) (x y : Z) :
  Ctx.drawImage c src 0 0 = Normal c' ->
  alpha (ImageData.pixelAt src x y) = 0 ->
  ImageData.pixelAt c' x y = ImageData.pixelAt c x y.
Proof.
  intros Hdraw Ha. rewrite (pixelAt_drawImage _ _ _ _ _ Hdraw).
  destruct (ImageData.inside _ _ x y) eqn:Hin.
  - now apply source_over_transparent.
  - symmetry. now apply pixelAt_outside.
Qed.

(** A snapshot of the whole canvas, for a canvas size that is not negative. *)
Lemma pixelAt_snapshot (c : Ctx.t) (w h x y : Z) :
  0 <= w -> 0 <= h ->
  ImageData.pixelAt (Ctx.region c 0 0 w h) x y =
  if ImageData.inside w h x y then ImageData.pixelAt c x y else transparent.
Proof.
  intros Hw Hh. unfold Ctx.region.
  rewrite pixelAt_build, !Z.abs_eq by lia.
  rewrite !Z.add_0_l, !Z.min_l by lia. reflexivity.
Qed.

(** The dirty rectangle that [putImageData] copies lies within the one it is
    given, when the given sizes are not negative. *)
Lemma clipDirty_within (img : ImageData.t) (info : FrameInfo.t) (x y : Z) :
  0 <= FrameInfo.width info -> 0 <= FrameInfo.height info ->
  Ctx.inRect (Ctx.clipDirty img (FrameInfo.x info) (FrameInfo.y info)
                (FrameInfo.width info) (FrameInfo.height info)) x y = true ->
  inDirty info x y = true.
Proof.
  intros Hw Hh. unfold Ctx.clipDirty, Ctx.inRect, inDirty.
  destruct (Z.ltb_spec (FrameInfo.width info) 0); [lia|].
  destruct (Z.ltb_spec (FrameInfo.height info) 0); [lia|].
  destruct (Z.ltb_spec (FrameInfo.x info) 0), (Z.ltb_spec (FrameInfo.y info) 0);
    repeat match goal with
           | |- context [if ?a <? ?b then _ else _] => destruct (Z.ltb_spec a b)
           end;
    rewrite !andb_true_iff, !Z.leb_le, !Z.ltb_lt; lia.
Qed.

(** The temporary layer, when [createImageData] returns: the GIF is not
    empty, and the layer holds the pixels of the decoded frame inside the
    clipped dirty rectangle, transparent black elsewhere. *)
Lemma tempLayer_normal (g : GifReader.t) (frameIndex : nat) (info : FrameInfo.t)
    (tempCtx : Ctx.t) :
  tempLayer g frameIndex info = Normal tempCtx ->
  GifReader.width g <> 0 /\ GifReader.height g <> 0
  /\ ImageData.width tempCtx = GifReader.width g
  /\ ImageData.height tempCtx = GifReader.height g
  /\ forall x y,
       ImageData.pixelAt tempCtx x y =
       if ImageData.inside (GifReader.width g) (GifReader.height g) x y
       then if Ctx.inRect (Ctx.clipDirty (decoded g frameIndex) (FrameInfo.x info)
                             (FrameInfo.y info) (FrameInfo.width info)
                             (FrameInfo.height info)) x y
            then ImageData.pixelAt (decoded g frameIndex) x y
            else transparent
       else transparent.
Proof.
  unfold tempLayer. cbv zeta.
  destruct (Ctx.createImageData (GifReader.width g) (GifReader.height g))
    as [newImageData|e] eqn:Hnew; [|discriminate].
  apply createImageData_normal in Hnew. destruct Hnew as (HW & HH & ->).
  cbn [bind]. intros [= <-].
  repeat split; try assumption.
  intros x y. unfold Ctx.putImageDataDirty, Ctx.createCanvas, ImageData.blank.
  rewrite pixelAt_build. cbn [ImageData.width ImageData.height ImageData.build].
  rewrite !Z.sub_0_r.
  destruct (ImageData.inside _ _ x y) eqn:Hin; [|reflexivity].
  fold (ImageData.build (GifReader.width g) (GifReader.height g) (fun _ _ => transparent)).
  rewrite pixelAt_build, Hin. reflexivity.
Qed.

Lemma tempLayer_sized (g : GifReader.t) (frameIndex : nat) (info : FrameInfo.t) :
  GifReader.width g <> 0 -> GifReader.height g <> 0 ->
  exists tempCtx, tempLayer g frameIndex info = Normal tempCtx.
Proof.
  intros HW HH. unfold tempLayer, Ctx.createImageData. cbv zeta.
  destruct (Z.eqb_spec (GifReader.width g) 0), (Z.eqb_spec (GifReader.height g) 0);
    try contradiction.
  cbn [orb bind]. eexists. reflexivity.
Qed.

(** ** The loop of [extractFrames] *)

Lemma dispose_0_1 (ctx tempCtx : Ctx.t) (info : FrameInfo.t) :
  FrameInfo.disposal info = 0 \/ FrameInfo.disposal info = 1 ->
  dispose ctx tempCtx info = Ctx.drawImage ctx tempCtx 0 0.
Proof. unfold dispose. intros [-> | ->]; reflexivity. Qed.

Lemma tempLayer_transparent (g : GifReader.t) (frameIndex : nat) (info : FrameInfo.t)
    (tempCtx : Ctx.t) (x y : Z) :
  tempLayer g frameIndex info = Normal tempCtx ->
  0 <= FrameInfo.width info -> 0 <= FrameInfo.height info ->
  inDirty info x y = false \/ alpha (ImageData.pixelAt (decoded g frameIndex) x y) = 0 ->
  alpha (ImageData.pixelAt tempCtx x y) = 0.
Proof.
  intros Htemp Hw Hh Hxy.
  destruct (tempLayer_normal _ _ _ _ Htemp) as (_ & _ & _ & _ & Hpix). rewrite Hpix.
  destruct (ImageData.inside _ _ x y); [|reflexivity].
  destruct (Ctx.inRect _ x y) eqn:Hrect; [|reflexivity].
  destruct Hxy as [Hout | Ha]; [|exact Ha].
  apply clipDirty_within in Hrect; [congruence | assumption | assumption].
Qed.

(** What an iteration that pushes a frame has done. *)
Lemma extractFrames_body_pushed (document : Document) (g : GifReader.t) (ctx ctx' : Ctx.t)
    (frameIndex : nat) (info : FrameInfo.t) (frame : Frame.t) :
  extractFrames_body document g ctx frameIndex info = Normal (Some (ctx', frame)) ->
  exists tempCtx,
    tempLayer g frameIndex info = Normal tempCtx
    /\ dispose ctx tempCtx info = Normal ctx'
    /\ frame = Frame.mk (FrameInfo.delay info * 10)
                 (Ctx.region ctx' 0 0 (GifReader.width g) (GifReader.height g)).
Proof.
  unfold extractFrames_body.
  destruct (negb (document (S frameIndex))); [discriminate|].
  destruct (tempLayer g frameIndex info) as [tempCtx|e]; [|discriminate]. cbn [bind].
  destruct (dispose ctx tempCtx info) as [ctx1|e] eqn:Hd; [|discriminate]. cbn [bind].
  destruct (Ctx.getImageData ctx1 0 0 (GifReader.width g) (GifReader.height g))
    as [img|e] eqn:Himg; [|discriminate].
  cbn [bind]. intros [= <- <-].
  apply getImageData_normal in Himg. destruct Himg as (_ & _ & ->).
  exists tempCtx. repeat split. exact Hd.
Qed.

(** With sizes that make every canvas call return, an iteration whose
    temporary canvas gets a context pushes a frame. *)
Lemma extractFrames_body_sized (document : Document) (g : GifReader.t) (ctx : Ctx.t)
    (frameIndex : nat) (info : FrameInfo.t) :
  document (S frameIndex) = true ->
  GifReader.width g <> 0 -> GifReader.height g <> 0 ->
  (FrameInfo.disposal info = 2 ->
   FrameInfo.width info <> 0 /\ FrameInfo.height info <> 0) ->
  exists ctx' frame,
    extractFrames_body document g ctx frameIndex info = Normal (Some (ctx', frame)).
Proof.
  intros Hdoc HW HH Hdirty. unfold extractFrames_body. rewrite Hdoc. cbn [negb].
  destruct (tempLayer_sized g frameIndex info HW HH) as [tempCtx Htemp].
  rewrite Htemp. cbn [bind].
  destruct (tempLayer_normal _ _ _ _ Htemp) as (_ & _ & Htw & Hth & _).
  assert (Hdisp : exists ctx', dispose ctx tempCtx info = Normal ctx').
  { unfold dispose, Ctx.drawImage. cbv zeta. rewrite Htw, Hth.
    destruct (Z.eqb_spec (GifReader.width g) 0), (Z.eqb_spec (GifReader.height g) 0);
      try contradiction.
    cbn [orb].
    destruct ((FrameInfo.disposal info =? 0) || (FrameInfo.disposal info =? 1));
      [eexists; reflexivity|].
    destruct (Z.eqb_spec (FrameInfo.disposal info) 2); [|eexists; reflexivity].
    destruct (Hdirty e) as [Hw Hh].
    rewrite getImageData_sized by assumption. cbn [bind]. eexists. reflexivity. }
  destruct Hdisp as [ctx' ->]. cbn [bind].
  rewrite getImageData_sized by assumption. cbn [bind].
  eexists. eexists. reflexivity.
Qed.

Lemma extractFrames_loop_total (document : Document) (g : GifReader.t) :
  (forall k, document k = true) ->
  forall (remaining frameIndex : nat) (ctx : Ctx.t) (frames : list Frame.t),
    (remaining = O \/ (GifReader.frames g <> [] /\ sized g)) ->
    exists result,
      extractFrames_loop document g remaining frameIndex ctx frames = Normal (Some result)
      /\ List.length result = (List.length frames + remaining)%nat.
Proof.
  intros Hdoc. induction remaining as [|remaining IH]; intros frameIndex ctx frames Hne.
  - exists frames. split; [reflexivity | lia].
  - destruct Hne as [Hne | [Hne Hs]]; [discriminate|].
    pose proof Hs as (HW & HH & Hdirty).
    cbn [extractFrames_loop].
    destruct (GifReader.frameInfo g O) as [info|e] eqn:Hinfo.
    2:{ unfold GifReader.frameInfo in Hinfo.
        destruct (GifReader.frames g); [congruence | discriminate]. }
    cbn [bind].
    destruct (extractFrames_body_sized document g ctx frameIndex info
                (Hdoc _) HW HH (Hdirty info eq_refl)) as [ctx' [frame ->]].
    cbn [bind].
    destruct (IH (S frameIndex) ctx' (frames ++ [frame])) as [result [Hres Hlen]].
    { right. split; assumption. }
    exists result. split; [exact Hres|].
    rewrite Hlen, length_app. cbn [List.length]. lia.
Qed.

(** The metadata of the frames after the first never reaches the loop: a
    reader whose frames all carry the metadata of frame 0 gives the same
    result. *)
Lemma extractFrames_loop_metadata (document : Document) (g g' : GifReader.t) :
  GifReader.width g' = GifReader.width g ->
  GifReader.height g' = GifReader.height g ->
  GifReader.decodeAndBlitFrameRGBA g' = GifReader.decodeAndBlitFrameRGBA g ->
  GifReader.frameInfo g' O = GifReader.frameInfo g O ->
  forall (remaining frameIndex : nat) (ctx : Ctx.t) (frames : list Frame.t),
    extractFrames_loop document g' remaining frameIndex ctx frames =
    extractFrames_loop document g remaining frameIndex ctx frames.
Proof.
  intros Hw Hh Hd Hi. induction remaining as [|remaining IH]; intros; [reflexivity|].
  cbn [extractFrames_loop]. rewrite Hi.
  destruct (GifReader.frameInfo g O) as [info|e]; [|reflexivity].
  cbn [bind]. unfold extractFrames_body, tempLayer. rewrite Hw, Hh, Hd.
  destruct (extractFrames_body document g ctx frameIndex info) as [[[ctx' frame]|]|e] eqn:Hb;
    unfold extractFrames_body, tempLayer in Hb; rewrite Hb; cbn [bind];
    [apply IH | reflexivity | reflexivity].
Qed.

(** C1.  The two-frame GIF [twoPatches]: frame 1 has its own rectangle (the
    pixel (1,0)) and its own delay (20 centiseconds), yet the frame emitted
    for it carries the delay of frame 0 (100 ms) and lacks the blue pixel,
    because the loop fetches [frameInfo(0)] in every iteration. *)
Theorem extractFrames_reuses_frame_0_metadata :
  GifReader.frameInfo twoPatches 1 = Normal (FrameInfo.mk 1 0 1 1 1 20)
  /\ ImageData.pixelAt (decoded twoPatches 1) 1 0 = opaqueBlue
  /\ extractFrames allContexts twoPatches =
     Normal (Some [Frame.mk 100 (ImageData.mk 2 1 [opaqueRed; transparent]);
                   Frame.mk 100 (ImageData.mk 2 1 [opaqueRed; transparent])]).
Proof. repeat split. Qed.

(** What the branch of disposal code 2 does to the buffer when it returns:
    the rectangle of the size of the dirty one, but anchored at the origin,
    takes the pixels of the temporary layer; the rest keeps its pixels. *)
Lemma dispose_2_pixel (ctx tempCtx ctx' : Ctx.t) (info : FrameInfo.t) (x y : Z) :
  FrameInfo.disposal info = 2 ->
  0 <= FrameInfo.width info -> 0 <= FrameInfo.height info ->
  dispose ctx tempCtx info = Normal ctx' ->
  ImageData.pixelAt ctx' x y =
  if ImageData.inside (ImageData.width ctx) (ImageData.height ctx) x y
  then if ImageData.inside (FrameInfo.width info) (FrameInfo.height info) x y
       then ImageData.pixelAt tempCtx x y
       else ImageData.pixelAt ctx x y
  else transparent.
Proof.
  intros Hd Hw Hh. unfold dispose. rewrite Hd. cbn [Z.eqb Pos.eqb orb].
  destruct (Ctx.getImageData tempCtx 0 0 (FrameInfo.width info) (FrameInfo.height info))
    as [img|e] eqn:Himg; [|discriminate].
  apply getImageData_normal in Himg. destruct Himg as (_ & _ & ->).
  cbn [bind]. intros [= <-].
  unfold Ctx.putImageData, Ctx.putImageDataDirty. cbv zeta.
  rewrite pixelAt_build, !Z.sub_0_r.
  destruct (ImageData.inside (ImageData.width ctx) _ x y); [|reflexivity].
  rewrite pixelAt_snapshot by assumption.
  unfold Ctx.region, Ctx.clipDirty, Ctx.inRect.
  cbn [ImageData.width ImageData.height ImageData.build].
  rewrite !Z.abs_eq by assumption.
  destruct (Z.ltb_spec (FrameInfo.width info) 0); [lia|].
  destruct (Z.ltb_spec (FrameInfo.height info) 0); [lia|].
  cbn [Z.ltb Z.compare Z.add].
  destruct (Z.ltb_spec (FrameInfo.width info) (FrameInfo.width info)); [lia|].
  destruct (Z.ltb_spec (FrameInfo.height info) (FrameInfo.height info)); [lia|].
  unfold ImageData.inside. cbn [Z.add].
  destruct ((0 <=? x) && (x <? FrameInfo.width info) && (0 <=? y)
            && (y <? FrameInfo.height info)); reflexivity.
Qed.

(** C4.  The one-frame GIF [restoreToBackground] with disposal code 2 and
    dirty rectangle (1,0,1,1): the temporary layer holds the red pixel at
    (1,0), but the region read back starts at (0,0) and is written at (0,0),
    so the red pixel never reaches the buffer and the emitted frame is
    transparent at (1,0). *)
Theorem disposal_2_reads_and_writes_at_origin :
  let info := FrameInfo.mk 1 0 1 1 2 10 in
  GifReader.frameInfo restoreToBackground 0 = Normal info
  /\ tempLayer restoreToBackground 0 info
     = Normal (ImageData.mk 2 1 [transparent; opaqueRed])
  /\ extractFrames allContexts restoreToBackground =
     Normal (Some [Frame.mk 100 (ImageData.mk 2 1 [transparent; transparent])]).
Proof. repeat split. Qed.

(** One iteration with disposal code 0 or 1, whatever metadata it is given:
    at every coordinate outside the dirty rectangle, and at every coordinate
    where the decoded patch is transparent, the pushed frame has the pixel
    that the buffer had before the iteration. *)
Lemma iteration_disposal_0_1_persistence (document : Document) (g : GifReader.t)
    (ctx ctx' : Ctx.t) (frameIndex : nat) (info : FrameInfo.t) (frame : Frame.t) :
  0 <= GifReader.width g -> 0 <= GifReader.height g ->
  0 <= FrameInfo.width info -> 0 <= FrameInfo.height info ->
  FrameInfo.disposal info = 0 \/ FrameInfo.disposal info = 1 ->
  extractFrames_body document g ctx frameIndex info = Normal (Some (ctx', frame)) ->
  forall x y,
    inDirty info x y = false \/ alpha (ImageData.pixelAt (decoded g frameIndex) x y) = 0 ->
    ImageData.pixelAt (Frame.imageData frame) x y =
    ImageData.pixelAt (Ctx.region ctx 0 0 (GifReader.width g) (GifReader.height g)) x y.
Proof.
  intros HW HH Hw Hh Hdisp Hbody x y Hxy.
  destruct (extractFrames_body_pushed _ _ _ _ _ _ _ Hbody) as [tempCtx (Htemp & Hd & ->)].
  cbn [Frame.imageData].
  rewrite !pixelAt_snapshot by assumption.
  destruct (ImageData.inside _ _ x y); [|reflexivity].
  rewrite dispose_0_1 in Hd by assumption.
  apply (drawImage_shows_through _ _ _ _ _ Hd).
  now apply (tempLayer_transparent g frameIndex info).
Qed.

(** C6.  The two-frame GIF [twoDisposals]: frame 1 is a patch with disposal
    code 1 whose dirty rectangle is the pixel (1,0), so the pixel (0,0),
    red in frame 0, lies outside it; yet the frame emitted for it is
    transparent at (0,0), because the loop composites it with the metadata
    of frame 0 (the whole canvas, disposal code 2). *)
Theorem extractFrames_patch_1_loses_previous_pixel :
  let info := FrameInfo.mk 1 0 1 1 1 20 in
  GifReader.frameInfo twoDisposals 1 = Normal info
  /\ inDirty info 0 0 = false
  /\ extractFrames allContexts twoDisposals =
     Normal (Some [Frame.mk 100 (ImageData.mk 2 1 [opaqueRed; opaqueRed]);
                   Frame.mk 100 (ImageData.mk 2 1 [transparent; opaqueBlue])]).
Proof. repeat split. Qed.

(** C10 as stated fails: for the GIF of width 0 with one frame every context
    is acquired, yet [extractFrames] does not return: [createImageData(0, 1)]
    throws. *)
Lemma extractFrames_zero_width_counterexample :
  GifReader.numFrames zeroWidth = 1%nat
  /\ extractFrames allContexts zeroWidth = Throw IndexSizeError
  /\ ~ (exists frames,
           extractFrames allContexts zeroWidth = Normal (Some frames)
           /\ List.length frames = GifReader.numFrames zeroWidth).
Proof.
  repeat split. intros [frames [H _]]. discriminate H.
Qed.

(** The first iteration throws when the GIF is empty or when the dirty
    rectangle of frame 0 is empty under disposal code 2. *)
Lemma extractFrames_body_empty (document : Document) (g : GifReader.t) (ctx : Ctx.t)
    (frameIndex : nat) (info : FrameInfo.t) :
  document (S frameIndex) = true ->
  GifReader.width g = 0 \/ GifReader.height g = 0
  \/ (FrameInfo.disposal info = 2
      /\ (FrameInfo.width info = 0 \/ FrameInfo.height info = 0)) ->
  extractFrames_body document g ctx frameIndex info = Throw IndexSizeError.
Proof.
  intros Hdoc Hempty. unfold extractFrames_body. rewrite Hdoc. cbn [negb].
  destruct (tempLayer g frameIndex info) as [tempCtx|e] eqn:Htemp.
  - destruct (tempLayer_normal _ _ _ _ Htemp) as (HW & HH & _).
    destruct Hempty as [H | [H | [Hd Hdirty]]]; [contradiction | contradiction |].
    cbn [bind]. unfold dispose. rewrite Hd. cbn [Z.eqb Pos.eqb orb].
    unfold Ctx.getImageData.
    destruct Hdirty as [-> | ->]; [|rewrite orb_true_r]; reflexivity.
  - unfold tempLayer, Ctx.createImageData in Htemp. cbv zeta in Htemp.
    destruct ((GifReader.width g =? 0) || (GifReader.height g =? 0));
      cbn [bind] in Htemp; [|discriminate].
    injection Htemp as <-. reflexivity.
Qed.

(** C10, amended.  When every 2D context can be acquired, [extractFrames]
    never returns null.  For a reader without frames, or with sizes that are
    not empty (width and height of the GIF, and the dirty width and height
    of frame 0 when its disposal code is 2), it returns an array with one
    frame per frame of the reader, the empty array when there is none.  For
    a reader with frames and an empty size the first iteration throws the
    [IndexSizeError] of the canvas. *)
Theorem extractFrames_length (document : Document) (gifReader : GifReader.t) :
  (forall k, document k = true) ->
  (GifReader.numFrames gifReader = O \/ sized gifReader ->
   exists frames,
     extractFrames document gifReader = Normal (Some frames)
     /\ List.length frames = GifReader.numFrames gifReader
     /\ (GifReader.numFrames gifReader = O -> frames = []))
  /\ ((0 < GifReader.numFrames gifReader)%nat ->
      (GifReader.width gifReader = 0 \/ GifReader.height gifReader = 0
       \/ exists info,
            GifReader.frameInfo gifReader O = Normal info
            /\ FrameInfo.disposal info = 2
            /\ (FrameInfo.width info = 0 \/ FrameInfo.height info = 0)) ->
      extractFrames document gifReader = Throw IndexSizeError).
Proof.
  intros Hdoc. unfold extractFrames. rewrite Hdoc. cbn [negb]. split.
  - intros Hsized.
    destruct (extractFrames_loop_total document gifReader Hdoc
                (GifReader.numFrames gifReader) O
                (Ctx.createCanvas (GifReader.width gifReader) (GifReader.height gifReader)) [])
      as [frames [Hres Hlen]].
    + destruct Hsized as [H0 | Hs]; [left; exact H0|].
      unfold GifReader.numFrames. destruct (GifReader.frames gifReader);
        [left; reflexivity | right; split; [discriminate | exact Hs]].
    + exists frames. split; [exact Hres|]. split; [exact Hlen|].
      intros H0. rewrite H0 in Hlen. destruct frames; [reflexivity | discriminate].
  - intros Hpos Hempty.
    destruct (GifReader.numFrames gifReader) as [|remaining] eqn:Hn; [lia|].
    cbn [extractFrames_loop].
    destruct (GifReader.frameInfo gifReader O) as [info|e] eqn:Hinfo.
    2:{ unfold GifReader.frameInfo, GifReader.numFrames in *.
        destruct (GifReader.frames gifReader); discriminate. }
    cbn [bind]. rewrite extractFrames_body_empty; [reflexivity | apply Hdoc |].
    destruct Hempty as [H | [H | [info' (Hinfo' & Hd & Hdirty)]]]; auto.
    injection Hinfo' as <-. auto.
Qed.

Lemma extractFrames_length_witness :
  exists frames,
    extractFrames allContexts noFrames = Normal (Some frames)
    /\ List.length frames = GifReader.numFrames noFrames
    /\ (GifReader.numFrames noFrames = O -> frames = []).
Proof.
  apply (extractFrames_length allContexts noFrames); [reflexivity|].
  left. reflexivity.
Defined.

(** ** Loading *)

(** C2 as stated fails: for the GIF without frames the load ends in the
    resolved state, since the empty array that [extractFrames] returns is
    not falsy. *)
Lemma zero_frames_counterexample :
  let h := loadGif sampleNetwork allContexts "empty" (Hook.initial None) in
  GifReader.numFrames noFrames = O
  /\ Hook.state h = Resolved noFrames []
  /\ useGifController (render "empty" false h) = GifControllerResolved 1 1 false
  /\ ~ (exists errorMessage, Hook.state h = Failed errorMessage).
Proof.
  cbv zeta. repeat split. intros [errorMessage H]. discriminate H.
Qed.

(** C2, amended.  For a reader without frames the load ends in the resolved
    state with an empty frame array when the 2D context of the accumulating
    canvas can be acquired, and in the error state, with the message of the
    null result, only when it cannot. *)
Theorem zero_frames_resolve (network : Network) (document : Document)
    (url : string) (gifReader : GifReader.t) (h : Hook.t) :
  network url = Normal gifReader ->
  GifReader.numFrames gifReader = O ->
  Hook.state (loadGif network document url h) =
  if document O then Resolved gifReader []
  else Failed "Could not extract frames from GIF.".
Proof.
  intros Hnet Hzero. unfold loadGif. rewrite Hnet. cbn [bind].
  unfold extractFrames. rewrite Hzero.
  destruct (document O); reflexivity.
Qed.

Lemma zero_frames_resolve_witness :
  Hook.state (loadGif sampleNetwork allContexts "empty" (Hook.initial None)) =
  if allContexts O then Resolved noFrames []
  else Failed "Could not extract frames from GIF.".
Proof.
  apply (zero_frames_resolve sampleNetwork allContexts "empty" noFrames (Hook.initial None));
    reflexivity.
Defined.

(** C7 as stated fails: the hook is mounted with urlA, the url changes to
    urlB, the load of urlB ends, then the load of urlA ends; the state is
    then the one of urlA although the current url is urlB. *)
Lemma stale_decode_counterexample :
  exists h,
    (h <- commit "urlA" false (Hook.initial (Some (ImageData.blank 1 1))) ;;
     commit "urlB" false h) = Normal h
    /\ Hook.loads h = ["urlA"; "urlB"]%string
    /\ option_map Deps.url (Hook.deps h) = Some "urlB"%string
    /\ let hB := settle sampleNetwork allContexts 1 h in
       let hA := settle sampleNetwork allContexts 0 hB in
       Hook.state hB = Resolved wide (framesOf wide)
       /\ Hook.state hA = Resolved twoPatches (framesOf twoPatches)
       /\ Hook.state hA <> Hook.state hB.
Proof.
  eexists. split; [reflexivity|]. repeat split.
  cbv zeta. intros H. cbv in H. inversion H.
Qed.

(** C7, amended.  When a pending load ends, its outcome becomes the state,
    whatever the url of the last commit is: the state reflects the load that
    ended last.  Only a rejected load leaves the state as it was. *)
Theorem settle_overwrites_state (network : Network) (document : Document)
    (k : nat) (url : string) (gifReader : GifReader.t) (h : Hook.t) :
  nth_error (Hook.loads h) k = Some url ->
  network url = Normal gifReader ->
  Hook.state (settle network document k h) =
  match extractFrames document gifReader with
  | Normal (Some frames) => Resolved gifReader frames
  | Normal None => Failed "Could not extract frames from GIF."
  | Throw _ => Hook.state h
  end.
Proof.
  intros Hk Hnet. unfold settle, loadGif. rewrite Hk, Hnet. cbn [bind].
  destruct (extractFrames document gifReader) as [[frames|]|e]; reflexivity.
Qed.

Lemma settle_overwrites_state_witness :
  Hook.state (settle sampleNetwork allContexts 0
                (Hook.set_loads ["urlA"; "urlB"]%string (Hook.initial None))) =
  Resolved twoPatches (framesOf twoPatches).
Proof.
  apply (settle_overwrites_state sampleNetwork allContexts 0 "urlA" twoPatches
           (Hook.set_loads ["urlA"; "urlB"]%string (Hook.initial None)));
    reflexivity.
Defined.

(** ** Playback *)

Lemma index_in_range {A : Type} (a : list A) (i : Z) :
  0 <= i < Z.of_nat (List.length a) -> exists v, index a i = Some v.
Proof.
  intros Hi. unfold index. destruct (Z.ltb_spec i 0); [lia|].
  destruct (nth_error a (Z.to_nat i)) as [v|] eqn:Hnth; [now exists v|].
  apply nth_error_None in Hnth. lia.
Qed.

Lemma set_canvas_same (h : Hook.t) : Hook.set_canvas (Hook.canvas h) h = h.
Proof. destruct h; reflexivity. Qed.

(** In the resolved state [renderFrame] returns and touches the canvas only. *)
Lemma renderFrame_resolved (r : Render.t) (h : Hook.t) (g : GifReader.t)
    (frames : list Frame.t) (i : Z) :
  Render.state r = Resolved g frames ->
  List.length frames = GifReader.numFrames g ->
  exists c, renderFrame r i h = Normal (Hook.set_canvas c h).
Proof.
  intros Hst Hlen. unfold renderFrame. rewrite Hst.
  destruct (negb (Render.ctx r)); [exists (Hook.canvas h); now rewrite set_canvas_same|].
  destruct (Z.ltb_spec i 0); cbn [orb];
    [exists (Hook.canvas h); now rewrite set_canvas_same|].
  destruct (Z.geb_spec i (Z.of_nat (GifReader.numFrames g)));
    [exists (Hook.canvas h); now rewrite set_canvas_same|].
  destruct (index_in_range frames i) as [frame ->]; [lia|].
  eexists. reflexivity.
Qed.

(** The two sample controllers are states the hook reaches from its mount. *)
Lemma readyTwoPatches_reachable : mountThenAttach = Normal readyTwoPatches.
Proof. vm_compute. reflexivity. Qed.

Lemma unrenderedTwoPatches_reachable : mountWithCanvas = Normal unrenderedTwoPatches.
Proof. vm_compute. reflexivity. Qed.

(** C3 as stated fails: [renderFrame(1)] on the controller paused on frame 0
    leaves the frame index at 0. *)
Lemma renderFrame_index_counterexample :
  Render.state readyRender = Resolved twoPatches (framesOf twoPatches)
  /\ Hook.frameIndex readyTwoPatches = 0
  /\ ~ (forall h, renderFrame readyRender 1 readyTwoPatches = Normal h ->
                  Hook.frameIndex h = 1).
Proof.
  repeat split. intros H.
  specialize (H _ eq_refl). discriminate H.
Qed.

(** C3, amended.  In the resolved state with a context, [renderFrame(i)]
    changes nothing when [i] is outside [0, count); otherwise it writes the
    image data of frame [i] to the canvas and changes nothing else: the
    frame index stays as it was. *)
Theorem renderFrame_draws_only (r : Render.t) (h : Hook.t) (g : GifReader.t)
    (frames : list Frame.t) (i : Z) :
  Render.state r = Resolved g frames ->
  Render.ctx r = true ->
  List.length frames = GifReader.numFrames g ->
  (i < 0 \/ Z.of_nat (List.length frames) <= i -> renderFrame r i h = Normal h)
  /\ (0 <= i < Z.of_nat (List.length frames) ->
      exists frame,
        index frames i = Some frame
        /\ renderFrame r i h =
           Normal (Hook.set_canvas
                     (option_map (fun c => Ctx.putImageData c (Frame.imageData frame) 0 0)
                                 (Hook.canvas h)) h))
  /\ (forall h', renderFrame r i h = Normal h' -> Hook.frameIndex h' = Hook.frameIndex h).
Proof.
  intros Hst Hctx Hlen. unfold renderFrame. rewrite Hst, Hctx, <- Hlen. cbn [negb].
  repeat split.
  - intros Hout.
    destruct (Z.ltb_spec i 0); [reflexivity|].
    destruct (Z.geb_spec i (Z.of_nat (List.length frames))); [reflexivity | lia].
  - intros Hin.
    destruct (Z.ltb_spec i 0); [lia|].
    destruct (Z.geb_spec i (Z.of_nat (List.length frames))); [lia|]. cbn [orb].
    destruct (index_in_range frames i Hin) as [frame Hframe].
    exists frame. now rewrite Hframe.
  - intros h'.
    destruct ((i <? 0) || (i >=? Z.of_nat (List.length frames))); [now intros [= <-]|].
    destruct (index frames i); [now intros [= <-] | discriminate].
Qed.

Lemma renderFrame_draws_only_witness :
  exists frame,
    index (framesOf twoPatches) 1 = Some frame
    /\ renderFrame readyRender 1 readyTwoPatches =
       Normal (Hook.set_canvas
                 (option_map (fun c => Ctx.putImageData c (Frame.imageData frame) 0 0)
                             (Hook.canvas readyTwoPatches)) readyTwoPatches).
Proof.
  apply (renderFrame_draws_only readyRender readyTwoPatches twoPatches
           (framesOf twoPatches) 1); first [ reflexivity | cbn; lia ].
Defined.

Lemma failedAfterReady_reachable :
  (h <- commit "urlB" false readyTwoPatches ;;
   Normal (settle sampleNetwork noContexts 0 h)) = Normal failedAfterReady.
Proof. vm_compute. reflexivity. Qed.

(** C8 as stated fails: the controller [readyTwoPatches] hands out its
    operations, the url changes and the new load ends in the error state;
    [renderNextFrame] of the resolved render, called now, moves the frame
    index from 0 to 1 and [play] sets [playing]. *)
Lemma stale_operation_counterexample :
  error (Hook.state failedAfterReady) = true
  /\ useGifController (render "urlB" false failedAfterReady)
     = GifControllerError "Could not extract frames from GIF."
  /\ offers readyRender RenderNextFrame = true
  /\ Hook.frameIndex failedAfterReady = 0
  /\ play readyRender failedAfterReady = Normal (Hook.setPlaying true failedAfterReady)
  /\ renderNextFrame readyRender failedAfterReady
     = Normal (Hook.set_frameIndex 1 failedAfterReady)
  /\ ~ (forall operation,
           offers readyRender operation = true ->
           call readyRender operation failedAfterReady = Normal failedAfterReady).
Proof.
  repeat split. intros H.
  specialize (H RenderNextFrame eq_refl). discriminate H.
Qed.

(** The callbacks never read the [state] cell: they see the state of the
    render that declared them. *)
Lemma call_ignores_state_cell (r : Render.t) (operation : Operation)
    (state : State) (h : Hook.t) :
  call r operation (Hook.setState state h) =
  (h' <- call r operation h ;; Normal (Hook.setState state h')).
Proof.
  destruct h as [st su ca pl fi _pl cv to lo dp].
  destruct operation; cbn [call];
    unfold play, pause, restart, renderNextFrame, renderPreviousFrame, renderFrame;
    cbn [Hook.setState Hook.frameIndex Hook.canvas Hook.state Hook.shouldUpdate
         Hook.canvasAccessible Hook.playing Hook._playing Hook.timeouts Hook.loads
         Hook.deps];
    destruct (Render.state r) as [|msg|g frames]; cbn [error loading orb bind];
    try reflexivity;
    repeat match goal with
           | |- context [if ?b then _ else _] => destruct b; cbn [bind]; try reflexivity
           | |- context [match index ?l ?i with _ => _ end] =>
               destruct (index l i); cbn [bind]; try reflexivity
           end.
Qed.

(** C8, amended.  A render that sees the loading or the error state returns
    an object without playback operations, and the operations it declares
    are guarded: [play], [renderFrame], [renderNextFrame] and
    [renderPreviousFrame] return without changing anything, [pause] and
    [restart] return, changing at most the [playing] cell and the frame
    index.  An operation acts on the state that its own render saw, whatever
    the state cell holds when it is called: operations kept from a resolved
    render are not guarded by a later loading or error state. *)
Theorem unresolved_callbacks (r : Render.t) (h : Hook.t) (i : Z) :
  (loading (Render.state r) || error (Render.state r) = true ->
   (forall operation, offers r operation = false)
   /\ play r h = Normal h
   /\ renderFrame r i h = Normal h
   /\ renderNextFrame r h = Normal h
   /\ renderPreviousFrame r h = Normal h
   /\ (exists playing, pause r h = Normal (Hook.setPlaying playing h))
   /\ (exists frameIndex, restart r h = Normal (Hook.set_frameIndex frameIndex h)))
  /\ (forall operation state,
         call r operation (Hook.setState state h) =
         (h' <- call r operation h ;; Normal (Hook.setState state h'))).
Proof.
  split; [|intros; apply call_ignores_state_cell].
  intros Hst.
  unfold offers, play, renderFrame, renderNextFrame, renderPreviousFrame, pause, restart.
  destruct (Render.state r); try discriminate Hst;
    (repeat split; [ now exists false | now exists 0 ]).
Qed.

Lemma unresolved_callbacks_witness :
  play (render "urlA" false (Hook.initial None)) (Hook.initial None) =
  Normal (Hook.initial None).
Proof.
  apply (unresolved_callbacks (render "urlA" false (Hook.initial None))
           (Hook.initial None) 0).
  reflexivity.
Defined.

(** [renderNextFrame] and [renderPreviousFrame] in the resolved state: both
    return, and set the frame index when there is a context. *)
Lemma renderNextFrame_resolved (r : Render.t) (h : Hook.t) (g : GifReader.t)
    (frames : list Frame.t) :
  Render.state r = Resolved g frames ->
  List.length frames = GifReader.numFrames g ->
  exists h',
    renderNextFrame r h = Normal h'
    /\ Hook.frameIndex h' =
       (if Render.ctx r then successor (GifReader.numFrames g) (Hook.frameIndex h)
        else Hook.frameIndex h)
    /\ Hook._playing h' = Hook._playing h
    /\ Hook.timeouts h' = Hook.timeouts h.
Proof.
  intros Hst Hlen. unfold renderNextFrame. rewrite Hst.
  destruct (Render.ctx r); cbn [negb]; [|now exists h].
  fold (successor (GifReader.numFrames g) (Hook.frameIndex h)).
  destruct (renderFrame_resolved r h g frames
              (successor (GifReader.numFrames g) (Hook.frameIndex h)) Hst Hlen) as [c ->].
  cbn [bind]. eexists. repeat split.
Qed.

Lemma renderPreviousFrame_resolved (r : Render.t) (h : Hook.t) (g : GifReader.t)
    (frames : list Frame.t) :
  Render.state r = Resolved g frames ->
  List.length frames = GifReader.numFrames g ->
  exists h',
    renderPreviousFrame r h = Normal h'
    /\ Hook.frameIndex h' =
       (if Render.ctx r
        then (if Hook.frameIndex h - 1 <? 0
              then Z.of_nat (GifReader.numFrames g) - 1
              else Hook.frameIndex h - 1)
        else Hook.frameIndex h).
Proof.
  intros Hst Hlen. unfold renderPreviousFrame. rewrite Hst.
  destruct (Render.ctx r); cbn [negb]; [|now exists h].
  match goal with
  | |- context [renderFrame r ?p h] =>
      destruct (renderFrame_resolved r h g frames p Hst Hlen) as [c ->]
  end.
  cbn [bind]. eexists. repeat split.
Qed.

(** C9 as stated fails: on the resolved controller that has not rendered a
    frame yet the frame index is -1; [renderNextFrame] moves it to 0 and
    [renderPreviousFrame] then to 1, the last frame. *)
Lemma renderPreviousFrame_initial_index_counterexample :
  let r := render "urlA" false unrenderedTwoPatches in
  Render.state r = Resolved twoPatches (framesOf twoPatches)
  /\ Hook.frameIndex unrenderedTwoPatches = -1
  /\ ~ (forall h1 h2,
           renderNextFrame r unrenderedTwoPatches = Normal h1 ->
           renderPreviousFrame r h1 = Normal h2 ->
           Hook.frameIndex h2 = Hook.frameIndex unrenderedTwoPatches).
Proof.
  cbv zeta. repeat split. intros H.
  destruct (renderNextFrame (render "urlA" false unrenderedTwoPatches) unrenderedTwoPatches)
    as [h1|] eqn:E1; [|vm_compute in E1; discriminate E1].
  destruct (renderPreviousFrame (render "urlA" false unrenderedTwoPatches) h1)
    as [h2|] eqn:E2.
  - specialize (H h1 h2 eq_refl E2).
    vm_compute in E1. injection E1 as <-.
    vm_compute in E2. injection E2 as <-.
    vm_compute in H. discriminate H.
  - vm_compute in E1. injection E1 as <-.
    vm_compute in E2. discriminate E2.
Qed.

(** C9, amended.  In the resolved state, from every frame index in
    [0, count), [renderNextFrame] then [renderPreviousFrame], and the two in
    the other order, bring the frame index back to where it was. *)
Theorem renderPreviousFrame_inverts_renderNextFrame (r : Render.t) (h : Hook.t)
    (g : GifReader.t) (frames : list Frame.t) :
  Render.state r = Resolved g frames ->
  List.length frames = GifReader.numFrames g ->
  0 <= Hook.frameIndex h < Z.of_nat (GifReader.numFrames g) ->
  (exists h1 h2,
      renderNextFrame r h = Normal h1
      /\ renderPreviousFrame r h1 = Normal h2
      /\ Hook.frameIndex h2 = Hook.frameIndex h)
  /\ (exists h1 h2,
         renderPreviousFrame r h = Normal h1
         /\ renderNextFrame r h1 = Normal h2
         /\ Hook.frameIndex h2 = Hook.frameIndex h).
Proof.
  intros Hst Hlen Hi. split.
  - destruct (renderNextFrame_resolved r h g frames Hst Hlen) as [h1 [E1 [F1 _]]].
    destruct (renderPreviousFrame_resolved r h1 g frames Hst Hlen) as [h2 [E2 F2]].
    exists h1, h2. repeat split; [assumption | assumption |].
    rewrite F2, F1. unfold successor. destruct (Render.ctx r); [|reflexivity].
    destruct (Z.geb_spec (Hook.frameIndex h + 1) (Z.of_nat (GifReader.numFrames g)));
      match goal with
      | |- context [if ?a <? ?b then _ else _] => destruct (Z.ltb_spec a b)
      end; lia.
  - destruct (renderPreviousFrame_resolved r h g frames Hst Hlen) as [h1 [E1 F1]].
    destruct (renderNextFrame_resolved r h1 g frames Hst Hlen) as [h2 [E2 [F2 _]]].
    exists h1, h2. repeat split; [assumption | assumption |].
    rewrite F2, F1. unfold successor. destruct (Render.ctx r); [|reflexivity].
    destruct (Z.ltb_spec (Hook.frameIndex h - 1) 0);
      match goal with
      | |- context [if ?a >=? ?b then _ else _] => destruct (Z.geb_spec a b)
      end; lia.
Qed.

Lemma renderPreviousFrame_inverts_renderNextFrame_witness :
  (exists h1 h2,
      renderNextFrame readyRender readyTwoPatches = Normal h1
      /\ renderPreviousFrame readyRender h1 = Normal h2
      /\ Hook.frameIndex h2 = Hook.frameIndex readyTwoPatches)
  /\ (exists h1 h2,
         renderPreviousFrame readyRender readyTwoPatches = Normal h1
         /\ renderNextFrame readyRender h1 = Normal h2
         /\ Hook.frameIndex h2 = Hook.frameIndex readyTwoPatches).
Proof.
  apply (renderPreviousFrame_inverts_renderNextFrame readyRender readyTwoPatches
           twoPatches (framesOf twoPatches)); first [ reflexivity | cbn; lia ].
Defined.

(** C5 as stated fails: after [play()] and [pause()] on the controller
    paused on frame 0, the pending tick fires and moves the frame index from
    0 to 1. *)
Lemma tick_after_pause_counterexample :
  ~ (forall h4 h5,
        play_then_pause "urlA" false readyTwoPatches = Normal h4 ->
        fire 0 h4 = Normal h5 ->
        Hook.frameIndex h5 = Hook.frameIndex h4).
Proof.
  intros H.
  destruct (play_then_pause "urlA" false readyTwoPatches) as [h4|] eqn:E4;
    [|vm_compute in E4; discriminate E4].
  destruct (fire 0 h4) as [h5|] eqn:E5.
  - specialize (H h4 h5 eq_refl E5).
    vm_compute in E4. injection E4 as <-.
    vm_compute in E5. injection E5 as <-.
    vm_compute in H. discriminate H.
  - vm_compute in E4. injection E4 as <-.
    vm_compute in E5. discriminate E5.
Qed.

Lemma nth_error_last {A : Type} (l : list A) (x : A) :
  nth_error (l ++ [x]) (List.length l) = Some x.
Proof. induction l as [|a l IH]; [reflexivity | exact IH]. Qed.

Lemma without_last {A : Type} (l : list A) (x : A) (rest : list A) :
  without (List.length l) (l ++ x :: rest) = l ++ rest.
Proof.
  unfold without. induction l as [|a l IH]; [reflexivity|].
  cbn [List.length firstn skipn app] in *. now rewrite IH.
Qed.

Lemma nth_error_middle {A : Type} (l : list A) (x : A) (rest : list A) :
  nth_error (l ++ x :: rest) (List.length l) = Some x.
Proof. induction l as [|a l IH]; [reflexivity | exact IH]. Qed.

(** A tick that fires while [_playing] is false, from a closure that sees
    the resolved state: it renders the next frame when the closure has a
    context and schedules nothing. *)
Lemma fire_while_paused (k : nat) (timeout : Timeout.t) (g : GifReader.t)
    (frames : list Frame.t) (h : Hook.t) :
  nth_error (Hook.timeouts h) k = Some timeout ->
  Render.state (Timeout.closure timeout) = Resolved g frames ->
  List.length frames = GifReader.numFrames g ->
  Hook._playing h = false ->
  exists h',
    fire k h = Normal h'
    /\ Hook.frameIndex h' =
       (if Render.ctx (Timeout.closure timeout)
        then successor (GifReader.numFrames g) (Hook.frameIndex h)
        else Hook.frameIndex h)
    /\ Hook.timeouts h' = without k (Hook.timeouts h)
    /\ Hook._playing h' = false.
Proof.
  intros Hk Hst Hlen Hp. unfold fire. rewrite Hk. cbv zeta.
  destruct (renderNextFrame_resolved (Timeout.closure timeout)
              (Hook.set_timeouts (without k (Hook.timeouts h)) h) g frames Hst Hlen)
    as [h1 (E & F & P & T)].
  rewrite E. cbn [bind].
  destruct h as [st su ca pl fi _pl cv to lo dp].
  cbn [Hook.set_timeouts Hook.frameIndex Hook._playing Hook.timeouts] in *.
  subst _pl. unfold _iterateRenderLoop. rewrite Hst, P. cbn [negb].
  exists h1. repeat split; assumption.
Qed.

(** C5, amended.  From a resolved controller at rest after a commit, paused
    and with its frame index in [0, count): [play()] followed by [pause()],
    a commit after each, adds exactly one tick to the pending ones, and none
    when one commit follows both calls; neither moves the frame index.  The
    added tick, when it fires, renders the next frame once if the canvas
    element is there (the frame index moves one step, cyclically; without
    the element it stays), finds [_playing] false and schedules nothing:
    the pending ticks are again those from before [play()], so that with
    none pending before no further tick can fire. *)
Theorem pause_leaves_one_tick (url : string) (autoplay : bool) (g : GifReader.t)
    (frames : list Frame.t) (h : Hook.t) :
  paused url autoplay g frames h ->
  (exists h4 tick,
      play_then_pause url autoplay h = Normal h4
      /\ Hook.timeouts h4 = Hook.timeouts h ++ [tick]
      /\ Hook.frameIndex h4 = Hook.frameIndex h
      /\ Hook._playing h4 = false
      /\ exists h5,
           fire (List.length (Hook.timeouts h)) h4 = Normal h5
           /\ Hook.timeouts h5 = Hook.timeouts h
           /\ Hook.frameIndex h5 =
              (if mounted h
               then successor (GifReader.numFrames g) (Hook.frameIndex h)
               else Hook.frameIndex h)
           /\ (Hook.timeouts h = [] -> forall k, fire k h5 = Normal h5))
  /\ (exists h2,
         play_pause_batched url autoplay h = Normal h2
         /\ Hook.timeouts h2 = Hook.timeouts h
         /\ Hook.frameIndex h2 = Hook.frameIndex h).
Proof.
  destruct h as [st su ca pl fi _pl cv to lo dp].
  unfold paused, mounted.
  cbn [Hook.state Hook.shouldUpdate Hook.canvasAccessible Hook.playing
       Hook.frameIndex Hook._playing Hook.canvas Hook.timeouts Hook.loads Hook.deps].
  intros (-> & Hlen & Hfi & -> & -> & ->).
  destruct (index_in_range frames fi) as [frame Hframe]; [lia|].
  split.
  - unfold play_then_pause, play, render. cbn.
    unfold commit, when, render. cbn.
    repeat progress (rewrite ?String.eqb_refl, ?Bool.eqb_reflx, ?Hframe; cbn).
    eexists. eexists. split; [reflexivity|].
    split; [reflexivity|]. split; [reflexivity|]. split; [reflexivity|].
    match goal with
    | |- context [fire _ ?h0] =>
        destruct (fire_while_paused (List.length to)
                    (Timeout.mk (Render.mk url autoplay
                                   (match cv with Some _ => true | None => false end)
                                   (Resolved g frames) su ca true)
                                (Frame.delay frame)) g frames h0)
          as [h5 (E & F & T & P)];
        [apply nth_error_last | reflexivity | exact Hlen | reflexivity |]
    end.
    exists h5. split; [exact E|].
    cbn [Hook.timeouts Hook.set_timeouts Hook.set_deps Hook.set_playing Hook.setPlaying
         Hook.frameIndex Timeout.closure Render.ctx] in F, T.
    rewrite without_last, app_nil_r in T.
    split; [exact T|]. split; [exact F|].
    intros Hto k. unfold fire. rewrite T, Hto. now destruct k.
  - unfold play_pause_batched, play, pause, render. cbn.
    unfold commit, when, render. cbn.
    repeat progress (rewrite ?String.eqb_refl, ?Bool.eqb_reflx; cbn).
    eexists. repeat split.
Qed.

Lemma pause_leaves_one_tick_witness :
  exists h4 tick,
    play_then_pause "urlA" false readyTwoPatches = Normal h4
    /\ Hook.timeouts h4 = Hook.timeouts readyTwoPatches ++ [tick]
    /\ Hook.frameIndex h4 = Hook.frameIndex readyTwoPatches
    /\ Hook._playing h4 = false
    /\ exists h5,
         fire (List.length (Hook.timeouts readyTwoPatches)) h4 = Normal h5
         /\ Hook.timeouts h5 = Hook.timeouts readyTwoPatches
         /\ Hook.frameIndex h5 =
            (if mounted readyTwoPatches
             then successor (GifReader.numFrames twoPatches)
                    (Hook.frameIndex readyTwoPatches)
             else Hook.frameIndex readyTwoPatches)
         /\ (Hook.timeouts readyTwoPatches = [] -> forall k, fire k h5 = Normal h5).
Proof.
  apply (pause_leaves_one_tick "urlA" false twoPatches (framesOf twoPatches) readyTwoPatches).
  unfold paused. repeat split; first [ reflexivity | cbn; lia ].
Defined.

(** * Further properties *)

(** ** [extractFrames] *)

(** An invariant [I] of the accumulating canvas that every iteration keeps,
    and a property [P] that every pushed frame has, carry over to the
    result of the loop. *)
Lemma extractFrames_loop_invariant (document : Document) (g : GifReader.t)
    (I : Ctx.t -> Prop) (P : Frame.t -> Prop) :
  (forall ctx frameIndex info ctx' frame,
      GifReader.frameInfo g O = Normal info ->
      I ctx ->
      extractFrames_body document g ctx frameIndex info = Normal (Some (ctx', frame)) ->
      I ctx' /\ P frame) ->
  forall (remaining frameIndex : nat) (ctx : Ctx.t) (frames result : list Frame.t),
    I ctx -> Forall P frames ->
    extractFrames_loop document g remaining frameIndex ctx frames = Normal (Some result) ->
    Forall P result.
Proof.
  intros Hbody. induction remaining as [|remaining IH];
    intros frameIndex ctx frames result Hctx Hframes Hloop.
  - injection Hloop as <-. exact Hframes.
  - cbn [extractFrames_loop] in Hloop.
    destruct (GifReader.frameInfo g O) as [info|e] eqn:Hinfo; [|discriminate].
    cbn [bind] in Hloop.
    destruct (extractFrames_body document g ctx frameIndex info)
      as [[[ctx' frame]|]|e] eqn:Hb; [|discriminate|discriminate].
    cbn [bind] in Hloop.
    destruct (Hbody _ _ _ _ _ eq_refl Hctx Hb) as [Hctx' Hframe].
    apply (IH _ _ _ _ Hctx') in Hloop; [exact Hloop|].
    apply Forall_app. split; [exact Hframes | now constructor].
Qed.

Lemma extractFrames_loop_null (document : Document) (g : GifReader.t) (k : nat) :
  GifReader.frames g <> [] ->
  (k = O \/ sized g) ->
  document (S k) = false ->
  forall (remaining frameIndex : nat) (ctx : Ctx.t) (frames : list Frame.t),
    (frameIndex <= k < frameIndex + remaining)%nat ->
    extractFrames_loop document g remaining frameIndex ctx frames = Normal None.
Proof.
  intros Hne Hsized Hk. induction remaining as [|remaining IH];
    intros frameIndex ctx frames Hrange; [lia|].
  cbn [extractFrames_loop].
  destruct (GifReader.frameInfo g O) as [info|e] eqn:Hinfo.
  2:{ unfold GifReader.frameInfo in Hinfo.
      destruct (GifReader.frames g); [congruence | discriminate]. }
  cbn [bind].
  destruct (document (S frameIndex)) eqn:Hdoc.
  - assert (Hlt : frameIndex <> k) by congruence.
    destruct Hsized as [-> | Hs]; [lia|].
    pose proof Hs as (HW & HH & Hdirty).
    destruct (extractFrames_body_sized document g ctx frameIndex info Hdoc HW HH
                (Hdirty info Hinfo)) as [ctx' [frame ->]].
    cbn [bind]. apply IH. lia.
  - unfold extractFrames_body. rewrite Hdoc. reflexivity.
Qed.

(** X1.  [extractFrames] returns null when the accumulating canvas or the
    first temporary canvas gets no 2D context, and, for a GIF with sizes
    that are not empty, when the temporary canvas of any frame gets none;
    the frames composited before that point are dropped. *)
Theorem extractFrames_null_without_context (document : Document) (g : GifReader.t)
    (k : nat) :
  document O = false
  \/ ((k < GifReader.numFrames g)%nat /\ document (S k) = false
      /\ (k = O \/ sized g)) ->
  extractFrames document g = Normal None.
Proof.
  intros H. unfold extractFrames.
  destruct (document O) eqn:H0; cbn [negb]; [|reflexivity].
  destruct H as [H | (Hk & Hdoc & Hsized)]; [discriminate|].
  apply (extractFrames_loop_null document g k); [|exact Hsized|exact Hdoc|lia].
  unfold GifReader.numFrames in Hk. destruct (GifReader.frames g); [cbn in Hk; lia|discriminate].
Qed.

Lemma extractFrames_null_without_context_witness :
  extractFrames twoContexts twoPatches = Normal None.
Proof.
  apply (extractFrames_null_without_context twoContexts twoPatches 1).
  right. split; [cbn; lia|]. split; [reflexivity|].
  right. unfold sized. split; [discriminate|]. split; [discriminate|].
  intros first [= <-] Hd. discriminate Hd.
Defined.

(** X2.  Every frame that [extractFrames] returns is an image of the size of
    the GIF: its width and height are those of the reader and it holds
    width times height pixels. *)
Theorem extractFrames_frame_size (document : Document) (g : GifReader.t)
    (frames : list Frame.t) :
  0 <= GifReader.width g -> 0 <= GifReader.height g ->
  extractFrames document g = Normal (Some frames) ->
  Forall (fun frame =>
            ImageData.width (Frame.imageData frame) = GifReader.width g
            /\ ImageData.height (Frame.imageData frame) = GifReader.height g
            /\ Z.of_nat (List.length (ImageData.data (Frame.imageData frame)))
               = GifReader.width g * GifReader.height g) frames.
Proof.
  intros Hw Hh. unfold extractFrames.
  destruct (negb (document O)); [discriminate|].
  apply (extractFrames_loop_invariant document g (fun _ => True)); auto.
  intros ctx frameIndex info ctx' frame _ _ Hb. split; [exact I|].
  destruct (extractFrames_body_pushed _ _ _ _ _ _ _ Hb) as [tempCtx (_ & _ & ->)].
  cbn [Frame.imageData Ctx.region ImageData.build ImageData.width
       ImageData.height ImageData.data].
  rewrite length_map, length_seq, !Z.abs_eq by lia.
  repeat split. apply Z2Nat.id. nia.
Qed.

Lemma extractFrames_frame_size_witness :
  Forall (fun frame =>
            ImageData.width (Frame.imageData frame) = GifReader.width twoPatches
            /\ ImageData.height (Frame.imageData frame) = GifReader.height twoPatches
            /\ Z.of_nat (List.length (ImageData.data (Frame.imageData frame)))
               = GifReader.width twoPatches * GifReader.height twoPatches)
         (framesOf twoPatches).
Proof.
  apply (extractFrames_frame_size allContexts twoPatches (framesOf twoPatches));
    first [ reflexivity | cbn; lia ].
Defined.

(** X3.  Every frame that [extractFrames] returns carries ten times the
    delay that [frameInfo(0)] reports: centiseconds become milliseconds, and
    the delay is that of the first frame for all of them. *)
Theorem extractFrames_delays (document : Document) (g : GifReader.t)
    (info : FrameInfo.t) (frames : list Frame.t) :
  GifReader.frameInfo g O = Normal info ->
  extractFrames document g = Normal (Some frames) ->
  Forall (fun frame => Frame.delay frame = FrameInfo.delay info * 10) frames.
Proof.
  intros Hinfo. unfold extractFrames.
  destruct (negb (document O)); [discriminate|].
  apply (extractFrames_loop_invariant document g (fun _ => True)); auto.
  intros ctx frameIndex info' ctx' frame Hinfo' _ Hb. split; [exact I|].
  rewrite Hinfo in Hinfo'. injection Hinfo' as <-.
  now destruct (extractFrames_body_pushed _ _ _ _ _ _ _ Hb) as [tempCtx (_ & _ & ->)].
Qed.

Lemma extractFrames_delays_witness :
  Forall (fun frame => Frame.delay frame = 10 * 10) (framesOf twoPatches).
Proof.
  apply (extractFrames_delays allContexts twoPatches (FrameInfo.mk 0 0 1 1 1 10)
           (framesOf twoPatches)); reflexivity.
Defined.

Lemma pixelAt_blank (w h x y : Z) :
  ImageData.pixelAt (ImageData.blank w h) x y = transparent.
Proof.
  unfold ImageData.blank. rewrite pixelAt_build.
  now destruct (ImageData.inside w h x y).
Qed.

(** X4.  When the disposal code that [frameInfo(0)] reports is none of 0, 1
    and 2, nothing is ever drawn on the accumulating canvas: every frame
    returned is transparent black at every coordinate. *)
Theorem extractFrames_unknown_disposal_blank (document : Document) (g : GifReader.t)
    (info : FrameInfo.t) (frames : list Frame.t) :
  GifReader.frameInfo g O = Normal info ->
  FrameInfo.disposal info <> 0 ->
  FrameInfo.disposal info <> 1 ->
  FrameInfo.disposal info <> 2 ->
  extractFrames document g = Normal (Some frames) ->
  Forall (fun frame =>
            forall x y, ImageData.pixelAt (Frame.imageData frame) x y = transparent)
         frames.
Proof.
  intros Hinfo H0 H1 H2. unfold extractFrames.
  destruct (negb (document O)); [discriminate|].
  apply (extractFrames_loop_invariant document g
           (fun ctx => forall x y, ImageData.pixelAt ctx x y = transparent));
    [|apply pixelAt_blank|constructor].
  intros ctx frameIndex info' ctx' frame Hinfo' Hctx Hb.
  rewrite Hinfo in Hinfo'. injection Hinfo' as <-.
  destruct (extractFrames_body_pushed _ _ _ _ _ _ _ Hb) as [tempCtx (_ & Hd & ->)].
  unfold dispose in Hd.
  destruct (Z.eqb_spec (FrameInfo.disposal info) 0); [contradiction|].
  destruct (Z.eqb_spec (FrameInfo.disposal info) 1); [contradiction|].
  destruct (Z.eqb_spec (FrameInfo.disposal info) 2); [contradiction|].
  cbn [orb] in Hd. injection Hd as <-. split; [exact Hctx|].
  intros x y. cbn [Frame.imageData]. unfold Ctx.region.
  rewrite pixelAt_build. destruct (ImageData.inside _ _ x y); [apply Hctx | reflexivity].
Qed.

Lemma extractFrames_unknown_disposal_blank_witness :
  Forall (fun frame =>
            forall x y, ImageData.pixelAt (Frame.imageData frame) x y = transparent)
         (framesOf restoreToPrevious).
Proof.
  apply (extractFrames_unknown_disposal_blank allContexts restoreToPrevious
           (FrameInfo.mk 0 0 2 1 3 10) (framesOf restoreToPrevious));
    first [ reflexivity | discriminate ].
Defined.

(** Within the image, the rectangle that [putImageData] copies is the dirty
    rectangle it is given, when the given sizes are not negative. *)
Lemma clipDirty_inRect (img : ImageData.t) (info : FrameInfo.t) (x y : Z) :
  0 <= FrameInfo.width info -> 0 <= FrameInfo.height info ->
  ImageData.inside (ImageData.width img) (ImageData.height img) x y = true ->
  Ctx.inRect (Ctx.clipDirty img (FrameInfo.x info) (FrameInfo.y info)
                (FrameInfo.width info) (FrameInfo.height info)) x y
  = inDirty info x y.
Proof.
  intros Hw Hh Hin. apply inside_true_iff in Hin.
  apply Bool.eq_true_iff_eq. unfold Ctx.clipDirty, Ctx.inRect, inDirty.
  destruct (Z.ltb_spec (FrameInfo.width info) 0); [lia|].
  destruct (Z.ltb_spec (FrameInfo.height info) 0); [lia|].
  destruct (Z.ltb_spec (FrameInfo.x info) 0), (Z.ltb_spec (FrameInfo.y info) 0);
    repeat match goal with
           | |- context [if ?a <? ?b then _ else _] => destruct (Z.ltb_spec a b)
           end;
    rewrite !andb_true_iff, !Z.leb_le, !Z.ltb_lt; lia.
Qed.

Lemma decoded_size (g : GifReader.t) (frameIndex : nat) :
  0 <= GifReader.width g -> 0 <= GifReader.height g ->
  ImageData.width (decoded g frameIndex) = GifReader.width g
  /\ ImageData.height (decoded g frameIndex) = GifReader.height g.
Proof.
  intros Hw Hh. unfold decoded, ImageData.blank, ImageData.build.
  cbn [ImageData.width ImageData.height]. now rewrite !Z.abs_eq.
Qed.

(** The temporary layer within the canvas: the decoded pixel inside the dirty
    rectangle, transparent black outside. *)
Lemma pixelAt_tempLayer_inside (g : GifReader.t) (frameIndex : nat) (info : FrameInfo.t)
    (tempCtx : Ctx.t) (x y : Z) :
  tempLayer g frameIndex info = Normal tempCtx ->
  0 <= GifReader.width g -> 0 <= GifReader.height g ->
  0 <= FrameInfo.width info -> 0 <= FrameInfo.height info ->
  ImageData.inside (GifReader.width g) (GifReader.height g) x y = true ->
  ImageData.pixelAt tempCtx x y =
  if inDirty info x y then ImageData.pixelAt (decoded g frameIndex) x y else transparent.
Proof.
  intros Htemp HW HH Hw Hh Hin.
  destruct (tempLayer_normal _ _ _ _ Htemp) as (_ & _ & _ & _ & Hpix).
  rewrite Hpix, Hin.
  rewrite clipDirty_inRect; [reflexivity | assumption | assumption |].
  destruct (decoded_size g frameIndex HW HH) as [-> ->]. exact Hin.
Qed.

Lemma source_over_opaque (s d : RGBA) :
  255 <= alpha s -> Ctx.source_over s d = s.
Proof.
  intros Ha. unfold Ctx.source_over.
  destruct (Z.leb_spec (alpha s) 0); [lia|].
  destruct (Z.leb_spec 255 (alpha s)); [reflexivity | lia].
Qed.

(** X5.  One iteration with disposal code 0 or 1: at every coordinate of the
    canvas that lies in the dirty rectangle and where the decoded patch is
    opaque, the emitted frame has the pixel of the patch. *)
Theorem disposal_0_1_opaque_patch (document : Document) (g : GifReader.t)
    (ctx ctx' : Ctx.t) (frameIndex : nat) (info : FrameInfo.t) (frame : Frame.t) :
  0 <= GifReader.width g -> 0 <= GifReader.height g ->
  0 <= FrameInfo.width info -> 0 <= FrameInfo.height info ->
  ImageData.width ctx = GifReader.width g ->
  ImageData.height ctx = GifReader.height g ->
  FrameInfo.disposal info = 0 \/ FrameInfo.disposal info = 1 ->
  extractFrames_body document g ctx frameIndex info = Normal (Some (ctx', frame)) ->
  forall x y,
    ImageData.inside (GifReader.width g) (GifReader.height g) x y = true ->
    inDirty info x y = true ->
    255 <= alpha (ImageData.pixelAt (decoded g frameIndex) x y) ->
    ImageData.pixelAt (Frame.imageData frame) x y =
    ImageData.pixelAt (decoded g frameIndex) x y.
Proof.
  intros HW HH Hw Hh Hcw Hch Hdisp Hbody x y Hin Hdirty Ha.
  destruct (extractFrames_body_pushed _ _ _ _ _ _ _ Hbody) as [tempCtx (Htemp & Hd & ->)].
  cbn [Frame.imageData].
  rewrite pixelAt_snapshot, Hin by assumption.
  rewrite dispose_0_1 in Hd by assumption.
  rewrite (pixelAt_drawImage _ _ _ _ _ Hd), Hcw, Hch, Hin.
  rewrite (pixelAt_tempLayer_inside g frameIndex info tempCtx), Hdirty by assumption.
  now apply source_over_opaque.
Qed.

Lemma disposal_0_1_opaque_patch_witness :
  ImageData.pixelAt (ImageData.mk 2 1 [opaqueRed; opaqueBlue]) 1 0 =
  ImageData.pixelAt (decoded twoPatches 1) 1 0.
Proof.
  apply (disposal_0_1_opaque_patch allContexts twoPatches
           (ImageData.mk 2 1 [opaqueRed; transparent])
           (ImageData.mk 2 1 [opaqueRed; opaqueBlue]) 1 (FrameInfo.mk 1 0 1 1 1 20)
           (Frame.mk 200 (ImageData.mk 2 1 [opaqueRed; opaqueBlue])));
    first [ reflexivity | cbn; lia ].
Defined.

(** X6.  One iteration with disposal code 2 and a dirty rectangle anchored at
    the origin: inside the dirty rectangle the emitted frame has the pixel
    of the decoded patch, transparent ones included (replacement, no
    blending), and outside it the pixel of the buffer before the iteration. *)
Theorem disposal_2_at_origin_replaces (document : Document) (g : GifReader.t)
    (ctx ctx' : Ctx.t) (frameIndex : nat) (info : FrameInfo.t) (frame : Frame.t) :
  0 <= GifReader.width g -> 0 <= GifReader.height g ->
  0 <= FrameInfo.width info -> 0 <= FrameInfo.height info ->
  ImageData.width ctx = GifReader.width g ->
  ImageData.height ctx = GifReader.height g ->
  FrameInfo.x info = 0 -> FrameInfo.y info = 0 ->
  FrameInfo.disposal info = 2 ->
  extractFrames_body document g ctx frameIndex info = Normal (Some (ctx', frame)) ->
  forall x y,
    ImageData.inside (GifReader.width g) (GifReader.height g) x y = true ->
    ImageData.pixelAt (Frame.imageData frame) x y =
    if inDirty info x y then ImageData.pixelAt (decoded g frameIndex) x y
    else ImageData.pixelAt ctx x y.
Proof.
  intros HW HH Hw Hh Hcw Hch Hx Hy Hdisp Hbody x y Hin.
  destruct (extractFrames_body_pushed _ _ _ _ _ _ _ Hbody) as [tempCtx (Htemp & Hd & ->)].
  cbn [Frame.imageData].
  rewrite pixelAt_snapshot, Hin by assumption.
  rewrite (dispose_2_pixel ctx tempCtx ctx' info), Hcw, Hch, Hin by assumption.
  rewrite (pixelAt_tempLayer_inside g frameIndex info tempCtx) by assumption.
  assert (Hsame : ImageData.inside (FrameInfo.width info) (FrameInfo.height info) x y
                  = inDirty info x y).
  { unfold ImageData.inside, inDirty. now rewrite Hx, Hy, !Z.add_0_l. }
  rewrite Hsame. now destruct (inDirty info x y).
Qed.

Lemma disposal_2_at_origin_replaces_witness :
  ImageData.pixelAt (ImageData.mk 2 1 [transparent; opaqueBlue]) 0 0 =
  if inDirty (FrameInfo.mk 0 0 1 1 2 20) 0 0
  then ImageData.pixelAt (decoded twoPatches 1) 0 0
  else ImageData.pixelAt (ImageData.mk 2 1 [opaqueRed; opaqueBlue]) 0 0.
Proof.
  apply (disposal_2_at_origin_replaces allContexts twoPatches
           (ImageData.mk 2 1 [opaqueRed; opaqueBlue])
           (ImageData.mk 2 1 [transparent; opaqueBlue]) 1 (FrameInfo.mk 0 0 1 1 2 20)
           (Frame.mk 200 (ImageData.mk 2 1 [transparent; opaqueBlue])));
    first [ reflexivity | cbn; lia ].
Defined.

(** ** Stepping through the frames *)

Lemma successor_mod (count : nat) (i : Z) :
  0 <= i < Z.of_nat count -> successor count i = (i + 1) mod Z.of_nat count.
Proof.
  intros Hi. unfold successor.
  destruct (Z.geb_spec (i + 1) (Z.of_nat count)).
  - replace (i + 1) with (Z.of_nat count) by lia. now rewrite Z.mod_same by lia.
  - now rewrite Z.mod_small by lia.
Qed.

(** X7.  In the resolved state with a context, from a frame index in
    [0, count), [k] calls of [renderNextFrame] all return and move the index
    forwards by [k] modulo count; count calls bring it back to where it was. *)
Theorem renderNextFrames_cycle (r : Render.t) (g : GifReader.t)
    (frames : list Frame.t) (k : nat) (h : Hook.t) :
  Render.state r = Resolved g frames ->
  Render.ctx r = true ->
  List.length frames = GifReader.numFrames g ->
  0 <= Hook.frameIndex h < Z.of_nat (GifReader.numFrames g) ->
  exists h',
    renderNextFrames k r h = Normal h'
    /\ Hook.frameIndex h' =
       (Hook.frameIndex h + Z.of_nat k) mod Z.of_nat (GifReader.numFrames g)
    /\ (k = GifReader.numFrames g -> Hook.frameIndex h' = Hook.frameIndex h).
Proof.
  intros Hst Hctx Hlen. revert h.
  assert (Hsteps : forall k h,
             0 <= Hook.frameIndex h < Z.of_nat (GifReader.numFrames g) ->
             exists h',
               renderNextFrames k r h = Normal h'
               /\ Hook.frameIndex h' =
                  (Hook.frameIndex h + Z.of_nat k) mod Z.of_nat (GifReader.numFrames g)).
  { clear k. induction k as [|k IH]; intros h Hi.
    - exists h. split; [reflexivity|]. now rewrite Z.add_0_r, Z.mod_small.
    - cbn [renderNextFrames].
      destruct (renderNextFrame_resolved r h g frames Hst Hlen) as [h1 (E & F & _)].
      rewrite E. cbn [bind]. rewrite Hctx, successor_mod in F by assumption.
      destruct (IH h1) as [h' [E' F']].
      { rewrite F. apply Z.mod_pos_bound. lia. }
      exists h'. split; [exact E'|].
      rewrite F', F, Zplus_mod_idemp_l. f_equal. lia. }
  intros h Hi. destruct (Hsteps k h Hi) as [h' [E F]].
  exists h'. repeat split; [exact E | exact F |].
  intros ->. rewrite F, <- (Z.mul_1_l (Z.of_nat (GifReader.numFrames g))) at 1.
  now rewrite Z_mod_plus_full, Z.mod_small.
Qed.

Lemma renderNextFrames_cycle_witness :
  exists h',
    renderNextFrames 2 readyRender readyTwoPatches = Normal h'
    /\ Hook.frameIndex h' =
       (Hook.frameIndex readyTwoPatches + Z.of_nat 2)
         mod Z.of_nat (GifReader.numFrames twoPatches)
    /\ (2%nat = GifReader.numFrames twoPatches ->
        Hook.frameIndex h' = Hook.frameIndex readyTwoPatches).
Proof.
  apply (renderNextFrames_cycle readyRender twoPatches (framesOf twoPatches) 2
           readyTwoPatches); first [ reflexivity | cbn; lia ].
Defined.

(** X8.  In the resolved state with a context and at least one frame, from
    the initial index -1 or any index in [0, count), [renderNextFrame] and
    [renderPreviousFrame] both leave an index in [0, count): the first step
    establishes the range and every later step keeps it. *)
Theorem step_index_in_range (r : Render.t) (g : GifReader.t)
    (frames : list Frame.t) (h : Hook.t) :
  Render.state r = Resolved g frames ->
  Render.ctx r = true ->
  List.length frames = GifReader.numFrames g ->
  (0 < GifReader.numFrames g)%nat ->
  -1 <= Hook.frameIndex h < Z.of_nat (GifReader.numFrames g) ->
  (exists h', renderNextFrame r h = Normal h'
              /\ 0 <= Hook.frameIndex h' < Z.of_nat (GifReader.numFrames g))
  /\ (exists h', renderPreviousFrame r h = Normal h'
                 /\ 0 <= Hook.frameIndex h' < Z.of_nat (GifReader.numFrames g)).
Proof.
  intros Hst Hctx Hlen Hpos Hi. split.
  - destruct (renderNextFrame_resolved r h g frames Hst Hlen) as [h' (E & F & _)].
    exists h'. split; [exact E|]. rewrite F, Hctx. unfold successor.
    destruct (Z.geb_spec (Hook.frameIndex h + 1) (Z.of_nat (GifReader.numFrames g))); lia.
  - destruct (renderPreviousFrame_resolved r h g frames Hst Hlen) as [h' (E & F)].
    exists h'. split; [exact E|]. rewrite F, Hctx.
    destruct (Z.ltb_spec (Hook.frameIndex h - 1) 0); lia.
Qed.

Lemma step_index_in_range_witness :
  (exists h', renderNextFrame (render "urlA" false unrenderedTwoPatches)
                unrenderedTwoPatches = Normal h'
              /\ 0 <= Hook.frameIndex h' < Z.of_nat (GifReader.numFrames twoPatches))
  /\ (exists h', renderPreviousFrame (render "urlA" false unrenderedTwoPatches)
                   unrenderedTwoPatches = Normal h'
                 /\ 0 <= Hook.frameIndex h' < Z.of_nat (GifReader.numFrames twoPatches)).
Proof.
  apply (step_index_in_range (render "urlA" false unrenderedTwoPatches) twoPatches
           (framesOf twoPatches) unrenderedTwoPatches);
    first [ reflexivity | cbn; lia ].
Defined.

(** [putImageData(img, 0, 0)] on a canvas of the size of [img] leaves the
    pixels of [img] on it. *)
Lemma pixelAt_putImageData_same_size (c : Ctx.t) (img : ImageData.t) (x y : Z) :
  ImageData.width c = ImageData.width img ->
  ImageData.height c = ImageData.height img ->
  ImageData.pixelAt (Ctx.putImageData c img 0 0) x y = ImageData.pixelAt img x y.
Proof.
  intros Hw Hh. unfold Ctx.putImageData, Ctx.putImageDataDirty. cbv zeta.
  rewrite pixelAt_build, !Z.sub_0_r, Hw, Hh.
  destruct (ImageData.inside (ImageData.width img) (ImageData.height img) x y) eqn:Hin;
    [|symmetry; now apply pixelAt_outside].
  apply inside_true_iff in Hin.
  unfold Ctx.clipDirty, Ctx.inRect.
  destruct (Z.ltb_spec (ImageData.width img) 0); [lia|].
  destruct (Z.ltb_spec (ImageData.height img) 0); [lia|].
  cbn [Z.ltb Z.compare Z.add].
  destruct (Z.ltb_spec (ImageData.width img) (ImageData.width img)); [lia|].
  destruct (Z.ltb_spec (ImageData.height img) (ImageData.height img)); [lia|].
  replace ((0 <=? x) && (x <? ImageData.width img) && (0 <=? y)
           && (y <? ImageData.height img)) with true; [reflexivity|].
  symmetry. rewrite !andb_true_iff, !Z.leb_le, !Z.ltb_lt. lia.
Qed.

(** X9.  In the resolved state with a context, [renderFrame(i)] for [i] in
    [0, count) on a canvas of the size of the frame leaves exactly frame
    [i] on the canvas: every pixel of the canvas is the pixel of the frame. *)
Theorem renderFrame_shows_frame (r : Render.t) (g : GifReader.t)
    (frames : list Frame.t) (i : Z) (frame : Frame.t) (c : ImageData.t) (h : Hook.t) :
  Render.state r = Resolved g frames ->
  Render.ctx r = true ->
  0 <= i < Z.of_nat (GifReader.numFrames g) ->
  index frames i = Some frame ->
  Hook.canvas h = Some c ->
  ImageData.width c = ImageData.width (Frame.imageData frame) ->
  ImageData.height c = ImageData.height (Frame.imageData frame) ->
  exists h' c',
    renderFrame r i h = Normal h'
    /\ Hook.canvas h' = Some c'
    /\ forall x y, ImageData.pixelAt c' x y = ImageData.pixelAt (Frame.imageData frame) x y.
Proof.
  intros Hst Hctx Hi Hframe Hc Hw Hh. unfold renderFrame.
  rewrite Hst, Hctx, Hframe, Hc. cbn [negb option_map].
  destruct (Z.ltb_spec i 0); [lia|].
  destruct (Z.geb_spec i (Z.of_nat (GifReader.numFrames g))); [lia|]. cbn [orb].
  eexists. eexists. split; [reflexivity|]. split; [reflexivity|].
  intros x y. now apply pixelAt_putImageData_same_size.
Qed.

Lemma renderFrame_shows_frame_witness :
  exists h' c',
    renderFrame readyRender 1 readyTwoPatches = Normal h'
    /\ Hook.canvas h' = Some c'
    /\ forall x y,
         ImageData.pixelAt c' x y =
         ImageData.pixelAt (ImageData.mk 2 1 [opaqueRed; transparent]) x y.
Proof.
  apply (renderFrame_shows_frame readyRender twoPatches (framesOf twoPatches) 1
           (Frame.mk 100 (ImageData.mk 2 1 [opaqueRed; transparent]))
           (ImageData.mk 2 1 [opaqueRed; transparent]) readyTwoPatches);
    first [ reflexivity | cbn; lia ].
Defined.

(** X10.  In the resolved state with a context and at least two frames,
    [restart()] followed by [renderNextFrame()] ends on frame 1: [restart]
    sets the index to 0 without drawing, so the step that follows draws
    frame 1 and frame 0 is not drawn. *)
Theorem restart_then_next_shows_frame_1 (r : Render.t) (g : GifReader.t)
    (frames : list Frame.t) (h : Hook.t) :
  Render.state r = Resolved g frames ->
  Render.ctx r = true ->
  List.length frames = GifReader.numFrames g ->
  (2 <= GifReader.numFrames g)%nat ->
  exists frame,
    index frames 1 = Some frame
    /\ restart_then_next r h =
       Normal (Hook.set_frameIndex 1
                 (Hook.set_canvas
                    (option_map (fun c => Ctx.putImageData c (Frame.imageData frame) 0 0)
                                (Hook.canvas h))
                    (Hook.set_frameIndex 0 h))).
Proof.
  intros Hst Hctx Hlen Hn.
  destruct (index_in_range frames 1) as [frame Hframe]; [lia|].
  exists frame. split; [exact Hframe|].
  unfold restart_then_next, restart. cbn [bind].
  unfold renderNextFrame, renderFrame. rewrite Hst, Hctx. cbn [negb].
  destruct h as [st su ca pl fi _pl cv to lo dp].
  cbn [Hook.set_frameIndex Hook.frameIndex Hook.canvas Z.add].
  destruct (Z.geb_spec 1 (Z.of_nat (GifReader.numFrames g))); [lia|].
  destruct (Z.geb_spec 1 (Z.of_nat (GifReader.numFrames g))); [lia|].
  cbn [Z.ltb Z.compare orb]. rewrite Hframe. reflexivity.
Qed.

Lemma restart_then_next_shows_frame_1_witness :
  exists frame,
    index (framesOf twoPatches) 1 = Some frame
    /\ restart_then_next readyRender readyTwoPatches =
       Normal (Hook.set_frameIndex 1
                 (Hook.set_canvas
                    (option_map (fun c => Ctx.putImageData c (Frame.imageData frame) 0 0)
                                (Hook.canvas readyTwoPatches))
                    (Hook.set_frameIndex 0 readyTwoPatches))).
Proof.
  apply (restart_then_next_shows_frame_1 readyRender twoPatches (framesOf twoPatches)
           readyTwoPatches); first [ reflexivity | cbn; lia ].
Defined.

(** ** The render loop *)

(** A tick that fires while [_playing] is true, from a closure that sees the
    resolved state: it steps to the next frame when the closure has a
    context, and registers one new timeout with the delay of the frame the
    index then points at, after the other pending ones. *)
Lemma fire_while_playing (k : nat) (timeout : Timeout.t) (g : GifReader.t)
    (frames : list Frame.t) (h : Hook.t) :
  nth_error (Hook.timeouts h) k = Some timeout ->
  Render.state (Timeout.closure timeout) = Resolved g frames ->
  List.length frames = GifReader.numFrames g ->
  0 <= Hook.frameIndex h < Z.of_nat (GifReader.numFrames g) ->
  Hook._playing h = true ->
  exists h' frame,
    fire k h = Normal h'
    /\ Hook.frameIndex h' =
       (if Render.ctx (Timeout.closure timeout)
        then successor (GifReader.numFrames g) (Hook.frameIndex h)
        else Hook.frameIndex h)
    /\ 0 <= Hook.frameIndex h' < Z.of_nat (GifReader.numFrames g)
    /\ index frames (Hook.frameIndex h') = Some frame
    /\ Hook.timeouts h' =
       without k (Hook.timeouts h) ++ [Timeout.mk (Timeout.closure timeout) (Frame.delay frame)]
    /\ Hook._playing h' = true.
Proof.
  intros Hk Hst Hlen Hi Hp. unfold fire. rewrite Hk. cbv zeta.
  destruct (renderNextFrame_resolved (Timeout.closure timeout)
              (Hook.set_timeouts (without k (Hook.timeouts h)) h) g frames Hst Hlen)
    as [h1 (E & F & P & T)].
  rewrite E. cbn [bind].
  destruct h as [st su ca pl fi _pl cv to lo dp].
  cbn [Hook.set_timeouts Hook.frameIndex Hook._playing Hook.timeouts] in *.
  subst _pl.
  assert (Hnext : 0 <= Hook.frameIndex h1 < Z.of_nat (GifReader.numFrames g)).
  { rewrite F. unfold successor. destruct (Render.ctx (Timeout.closure timeout)); [|lia].
    destruct (Z.geb_spec (fi + 1) (Z.of_nat (GifReader.numFrames g))); lia. }
  destruct (index_in_range frames (Hook.frameIndex h1)) as [frame Hframe]; [lia|].
  unfold _iterateRenderLoop. rewrite Hst, P, Hframe. cbn [negb].
  eexists. exists frame. split; [reflexivity|].
  destruct h1 as [st1 su1 ca1 pl1 fi1 _pl1 cv1 to1 lo1 dp1].
  cbn [Hook.set_timeouts Hook.frameIndex Hook._playing Hook.timeouts] in *.
  repeat split; try assumption; try lia. now rewrite T.
Qed.


Lemma loopingTwoPatches_reachable :
  (h <- play readyRender readyTwoPatches ;; commit "urlA" false h) = Normal loopingTwoPatches.
Proof. vm_compute. reflexivity. Qed.


(** X12.  From a resolved controller at rest after a commit, paused and with
    its frame index in [0, count): [play()], a commit, [play()] again and a
    commit add exactly one tick to the pending ones, with the delay of the
    current frame; the second [play()] changes nothing since [playing] is
    true already.  The frame index does not move. *)
Theorem play_twice_one_tick (url : string) (autoplay : bool) (g : GifReader.t)
    (frames : list Frame.t) (h : Hook.t) :
  paused url autoplay g frames h ->
  exists h' tick frame,
    play_twice url autoplay h = Normal h'
    /\ Hook.timeouts h' = Hook.timeouts h ++ [tick]
    /\ index frames (Hook.frameIndex h) = Some frame
    /\ Timeout.delay tick = Frame.delay frame
    /\ Render.state (Timeout.closure tick) = Resolved g frames
    /\ Hook.playing h' = true
    /\ Hook._playing h' = true
    /\ Hook.frameIndex h' = Hook.frameIndex h.
Proof.
  destruct h as [st su ca pl fi _pl cv to lo dp].
  unfold paused.
  cbn [Hook.state Hook.shouldUpdate Hook.canvasAccessible Hook.playing
       Hook.frameIndex Hook._playing Hook.canvas Hook.timeouts Hook.loads Hook.deps].
  intros (-> & Hlen & Hfi & -> & -> & ->).
  destruct (index_in_range frames fi) as [frame Hframe]; [lia|].
  unfold play_twice, play, render. cbn.
  unfold commit, when, render. cbn.
  repeat progress (rewrite ?String.eqb_refl, ?Bool.eqb_reflx, ?Hframe; cbn).
  eexists. eexists. exists frame.
  split; [reflexivity|]. repeat split; try exact Hframe.
Qed.

Lemma play_twice_one_tick_witness :
  exists h' tick frame,
    play_twice "urlA" false readyTwoPatches = Normal h'
    /\ Hook.timeouts h' = Hook.timeouts readyTwoPatches ++ [tick]
    /\ index (framesOf twoPatches) (Hook.frameIndex readyTwoPatches) = Some frame
    /\ Timeout.delay tick = Frame.delay frame
    /\ Render.state (Timeout.closure tick) = Resolved twoPatches (framesOf twoPatches)
    /\ Hook.playing h' = true
    /\ Hook._playing h' = true
    /\ Hook.frameIndex h' = Hook.frameIndex readyTwoPatches.
Proof.
  apply (play_twice_one_tick "urlA" false twoPatches (framesOf twoPatches) readyTwoPatches).
  unfold paused. repeat split; first [ reflexivity | cbn; lia ].
Defined.

(** X13.  From a resolved controller at rest after a commit, paused and with
    its frame index in [0, count): [play()], [pause()] and [play()] again, a
    commit after each and no tick fired in between, add two ticks to the
    pending ones.  Both find [_playing] true when they fire and schedule a
    successor, so that two added ticks stay pending; after both have fired
    the frame index is two steps further if the canvas element is there,
    and unmoved without it. *)
Theorem play_pause_play_two_ticks (url : string) (autoplay : bool) (g : GifReader.t)
    (frames : list Frame.t) (h : Hook.t) :
  paused url autoplay g frames h ->
  exists h' h'' tick1 tick2 next1 next2,
    play_pause_play url autoplay h = Normal h'
    /\ Hook.timeouts h' = Hook.timeouts h ++ [tick1; tick2]
    /\ Hook.frameIndex h' = Hook.frameIndex h
    /\ (h1 <- fire (List.length (Hook.timeouts h)) h' ;;
        fire (List.length (Hook.timeouts h)) h1) = Normal h''
    /\ Hook.timeouts h'' = Hook.timeouts h ++ [next1; next2]
    /\ Hook.frameIndex h'' =
       (if mounted h
        then successor (GifReader.numFrames g)
               (successor (GifReader.numFrames g) (Hook.frameIndex h))
        else Hook.frameIndex h).
Proof.
  destruct h as [st su ca pl fi _pl cv to lo dp].
  unfold paused, mounted.
  cbn [Hook.state Hook.shouldUpdate Hook.canvasAccessible Hook.playing
       Hook.frameIndex Hook._playing Hook.canvas Hook.timeouts Hook.loads Hook.deps].
  intros (-> & Hlen & Hfi & -> & -> & ->).
  destruct (index_in_range frames fi) as [frame Hframe]; [lia|].
  unfold play_pause_play, play_then_pause, play, pause, render. cbn.
  unfold commit, when, render. cbn.
  repeat progress (rewrite ?String.eqb_refl, ?Bool.eqb_reflx, ?Hframe; cbn).
  set (r := Render.mk url autoplay (match cv with Some _ => true | None => false end)
              (Resolved g frames) su ca true).
  set (tick := Timeout.mk r (Frame.delay frame)).
  match goal with
  | |- exists h' h'' _ _ _ _, Normal ?h0 = Normal h' /\ _ => set (hp := h0)
  end.
  assert (Hto : Hook.timeouts hp = to ++ [tick; tick]).
  { unfold hp. cbn. now rewrite <- app_assoc. }
  destruct (fire_while_playing (List.length to) tick g frames hp)
    as [h1 [frame1 (E1 & F1 & R1 & X1 & T1 & P1)]];
    try reflexivity; try assumption.
  { rewrite Hto. apply nth_error_middle. }
  rewrite Hto, without_last in T1.
  set (next1 := Timeout.mk (Timeout.closure tick) (Frame.delay frame1)) in *.
  assert (T1' : Hook.timeouts h1 = to ++ tick :: [next1])
    by (rewrite T1, <- app_assoc; reflexivity).
  destruct (fire_while_playing (List.length to) tick g frames h1)
    as [h2 [frame2 (E2 & F2 & R2 & X2 & T2 & P2)]];
    try reflexivity; try assumption.
  { rewrite T1'. apply nth_error_middle. }
  rewrite T1', without_last in T2.
  exists hp, h2, tick, tick.
  exists next1, (Timeout.mk r (Frame.delay frame2)).
  split; [reflexivity|]. split; [exact Hto|]. split; [reflexivity|].
  rewrite E1. cbn [bind]. split; [exact E2|].
  split; [rewrite T2, <- app_assoc; reflexivity|].
  rewrite F2, F1. cbn [tick Timeout.closure r Render.ctx hp Hook.frameIndex].
  destruct cv; reflexivity.
Qed.

Lemma play_pause_play_two_ticks_witness :
  exists h' h'' tick1 tick2 next1 next2,
    play_pause_play "urlA" false readyTwoPatches = Normal h'
    /\ Hook.timeouts h' = Hook.timeouts readyTwoPatches ++ [tick1; tick2]
    /\ Hook.frameIndex h' = Hook.frameIndex readyTwoPatches
    /\ (h1 <- fire (List.length (Hook.timeouts readyTwoPatches)) h' ;;
        fire (List.length (Hook.timeouts readyTwoPatches)) h1) = Normal h''
    /\ Hook.timeouts h'' = Hook.timeouts readyTwoPatches ++ [next1; next2]
    /\ Hook.frameIndex h'' =
       (if mounted readyTwoPatches
        then successor (GifReader.numFrames twoPatches)
               (successor (GifReader.numFrames twoPatches)
                  (Hook.frameIndex readyTwoPatches))
        else Hook.frameIndex readyTwoPatches).
Proof.
  apply (play_pause_play_two_ticks "urlA" false twoPatches (framesOf twoPatches)
           readyTwoPatches).
  unfold paused. repeat split; first [ reflexivity | cbn; lia ].
Defined.

(** ** Effects and loading *)

(** X14.  A load that is rejected (the fetch fails or the parser throws)
    sets nothing: the pending call goes away and every cell and ref is as
    before, so a loading controller stays loading and never reaches the
    error state. *)
Theorem rejected_load_changes_nothing (network : Network) (document : Document)
    (k : nat) (url e : string) (h : Hook.t) :
  nth_error (Hook.loads h) k = Some url ->
  network url = Throw e ->
  settle network document k h = Hook.set_loads (without k (Hook.loads h)) h
  /\ useGifController (render url false (settle network document k h))
     = useGifController (render url false h).
Proof.
  intros Hk Hnet. unfold settle, loadGif. rewrite Hk, Hnet. cbn [bind].
  split; [reflexivity|]. now destruct h.
Qed.

Lemma rejected_load_changes_nothing_witness :
  settle sampleNetwork allContexts 0
    (Hook.set_loads ["missing"]%string (Hook.initial None))
  = Hook.set_loads (without 0 ["missing"]%string)
      (Hook.set_loads ["missing"]%string (Hook.initial None)).
Proof.
  apply (rejected_load_changes_nothing sampleNetwork allContexts 0 "missing"
           "TypeError: Failed to fetch"
           (Hook.set_loads ["missing"]%string (Hook.initial None)));
    reflexivity.
Defined.

(** X15.  The effect on [autoplay, canvasAccessible], run from a resolved
    render with a context once the canvas is accessible: when no frame has
    been rendered yet (index -1) and there is a frame, it draws frame 0,
    sets the index to 0 and sets [playing] exactly when [autoplay] is set;
    when a frame has been rendered before it does nothing. *)
Theorem first_render_effect (r : Render.t) (g : GifReader.t)
    (frames : list Frame.t) (h : Hook.t) :
  Render.state r = Resolved g frames ->
  Render.ctx r = true ->
  Render.canvasAccessible r = true ->
  List.length frames = GifReader.numFrames g ->
  (0 < GifReader.numFrames g)%nat ->
  (Hook.frameIndex h = -1 ->
   exists frame,
     index frames 0 = Some frame
     /\ effect_canvasAccessible r h =
        let drawn :=
          Hook.set_frameIndex 0
            (Hook.set_canvas
               (option_map (fun c => Ctx.putImageData c (Frame.imageData frame) 0 0)
                           (Hook.canvas h)) h) in
        Normal (if Render.autoplay r then Hook.setPlaying true drawn else drawn))
  /\ (Hook.frameIndex h <> -1 -> effect_canvasAccessible r h = Normal h).
Proof.
  intros Hst Hctx Hca Hlen Hpos. split.
  - intros Hi.
    destruct (index_in_range frames 0) as [frame Hframe]; [lia|].
    exists frame. split; [exact Hframe|].
    unfold effect_canvasAccessible, renderNextFrame, renderFrame.
    rewrite Hca, Hi, Hst, Hctx. cbn [Z.eqb andb negb Z.add Z.opp Z.pos_sub].
    destruct (Z.geb_spec 0 (Z.of_nat (GifReader.numFrames g))); [lia|].
    cbn [Z.ltb Z.compare orb Pos.eqb]. rewrite Hframe. cbv zeta.
    destruct (Z.geb_spec 0 (Z.of_nat (GifReader.numFrames g))); [lia|].
    cbn [bind]. now destruct (Render.autoplay r).
  - intros Hi. unfold effect_canvasAccessible. rewrite Hca. cbn [andb].
    destruct (Z.eqb_spec (Hook.frameIndex h) (-1)); [contradiction | reflexivity].
Qed.

Lemma first_render_effect_witness :
  exists frame,
    index (framesOf twoPatches) 0 = Some frame
    /\ effect_canvasAccessible (render "urlA" false unrenderedTwoPatches)
         unrenderedTwoPatches =
       let drawn :=
         Hook.set_frameIndex 0
           (Hook.set_canvas
              (option_map (fun c => Ctx.putImageData c (Frame.imageData frame) 0 0)
                          (Hook.canvas unrenderedTwoPatches)) unrenderedTwoPatches) in
       Normal (if Render.autoplay (render "urlA" false unrenderedTwoPatches)
               then Hook.setPlaying true drawn else drawn).
Proof.
  apply (first_render_effect (render "urlA" false unrenderedTwoPatches) twoPatches
           (framesOf twoPatches) unrenderedTwoPatches);
    first [ reflexivity | cbn; lia ].
Defined.

Lemma index_out_of_range {A : Type} (a : list A) (i : Z) :
  i < 0 \/ Z.of_nat (List.length a) <= i -> index a i = None.
Proof.
  intros Hi. unfold index. destruct (Z.ltb_spec i 0); [reflexivity|].
  apply nth_error_None. lia.
Qed.

(** X16.  The effect on [playing], run with [playing] true from a resolved
    render while the frame index points at no frame (the initial -1, or any
    index when the GIF has no frames), throws a TypeError: the loop reads
    the delay of an undefined frame. *)
Theorem play_without_frame_throws (r : Render.t) (g : GifReader.t)
    (frames : list Frame.t) (h : Hook.t) :
  Render.state r = Resolved g frames ->
  Render.playing r = true ->
  Hook.frameIndex h < 0 \/ Z.of_nat (List.length frames) <= Hook.frameIndex h ->
  effect_playing r h = Throw TypeError.
Proof.
  intros Hst Hp Hi. unfold effect_playing, _iterateRenderLoop. rewrite Hp, Hst.
  destruct h as [st su ca pl fi _pl cv to lo dp].
  cbn [Hook.set_playing Hook._playing Hook.frameIndex negb] in *.
  now rewrite index_out_of_range.
Qed.

Lemma play_without_frame_throws_witness :
  effect_playing (render "urlA" false (Hook.setPlaying true unrenderedTwoPatches))
    (Hook.setPlaying true unrenderedTwoPatches) = Throw TypeError.
Proof.
  apply (play_without_frame_throws
           (render "urlA" false (Hook.setPlaying true unrenderedTwoPatches))
           twoPatches (framesOf twoPatches) (Hook.setPlaying true unrenderedTwoPatches));
    first [ reflexivity | cbn; lia ].
Defined.
